(** * Request lifecycle of the style-transfer bot (bot.py)

    A shallow embedding of [src/neural_style_transfer_telegram_bot/bot.py].

    The bot is a set of asyncio message handlers sharing
    - the FSM storage (per-user state name and data dict),
    - the module-level dict [REQUESTS_IN_PROCESSING] (user id -> future),
    - the futures returned by [loop.run_in_executor], and
    - the [Task] objects with their [done()] release hook.

    These are the fields of [World].  Every handler except
    [process_images] runs from its first line to its last reply without a
    suspension that another handler could observe (the in-memory FSM
    storage never suspends, and a future that is awaited right after
    [cancel()] is already done), so it is a function [World -> World].
    [process_images] suspends at [asyncio.sleep], [message.answer],
    [image.download] and [await future]; it is a [Frame] (the line it is
    suspended at, with its local variables) together with
    [process_images_resume], which runs it to its next suspension.
    [step] interleaves messages, resumptions and worker completions.

    Conventions: the FSM is keyed by the user id (private chats); a
    handler's first segment runs when its message is dispatched; sending
    a reply and downloading a file do not raise. *)

From Stdlib Require Import ZArith Lia.
From stdpp Require Import gmap strings list.

Local Open Scope Z_scope.

(** ** Job types and the capacity limit *)

Inductive TaskType :=
| style_transfer
| photo2van_gogh
| photo2monet
| photo2cezanne
| photo2ukiyoe.

#[global] Instance TaskType_eq_dec : EqDecision TaskType.
Proof. solve_decision. Defined.

Definition MAX_PICS_PER_REQUEST : Z := 10.

(** [task_type is TaskType.style_transfer] *)
Definition is_style_transfer (task_type : TaskType) : bool :=
  match task_type with style_transfer => true | _ => false end.

Definition get_max_pics_per_request (task_type : TaskType) : Z :=
  let max_pics_per_request := MAX_PICS_PER_REQUEST in
  if is_style_transfer task_type
  then max_pics_per_request - max_pics_per_request mod 2
  else max_pics_per_request.

(** ** Buffered images and Python list slicing *)

(** One element of [data['images']]: the downloadable object and the
    extension chosen at ingestion. *)
Record Image := mkImage { image_file : nat; image_ext : string }.

#[global] Instance Image_eq_dec : EqDecision Image.
Proof. solve_decision. Defined.

(** [len(images)] as a Python int *)
Definition len {A} (l : list A) : Z := Z.of_nat (length l).

(** [del l[k:]] for an arbitrary int [k]: a negative start counts from
    the end, and the start is clamped to [0 .. len l]. *)
Definition py_del_from {A} (k : Z) (l : list A) : list A :=
  let start := if k <? 0 then Z.max 0 (len l + k) else Z.min k (len l) in
  take (Z.to_nat start) l.

(** ** The capacity check of [process_images] (lines 224-271) *)

(** What [answer_text] announces before "Please wait ...". *)
Inductive Notice :=
| NoNotice
    (* answer_text = "" *)
| PairNotice (odd_number too_many : bool) (max_pics above_limit : Z)
    (* "Sorry, you sent ... Even number up to {max_pics} allowed.
        {above_limit} last image(s) will be ignored." *)
| LimitNotice (max_pics above_limit : Z).
    (* "Sorry, you sent too many images. Up to {max_pics} allowed.
        {above_limit} image(s) above the limit will be ignored." *)

Inductive Checked :=
| NoImagesSent (how_many : string)     (* lines 224-229: return *)
| OnlyOneImageSent                     (* lines 233-238: return *)
| Proceed (images : list Image) (notice : Notice).

Definition check_images (task_type : TaskType) (images : list Image) : Checked :=
  match images with
  | [] =>
      NoImagesSent (if is_style_transfer task_type then "two" else "one")
  | _ =>
      let max_pics_per_request := get_max_pics_per_request task_type in
      if is_style_transfer task_type then
        if len images =? 1 then OnlyOneImageSent
        else
          let odd_number := negb (len images mod 2 =? 0) in
          let too_many := max_pics_per_request <? len images in
          if odd_number || too_many then
            let above_limit :=
              Z.max (len images mod 2) (len images - max_pics_per_request) in
            Proceed (py_del_from (len images - above_limit) images)
                    (PairNotice odd_number too_many
                                max_pics_per_request above_limit)
          else Proceed images NoNotice
      else if max_pics_per_request <? len images then
        let above_limit := len images - max_pics_per_request in
        Proceed (py_del_from max_pics_per_request images)
                (LimitNotice max_pics_per_request above_limit)
      else Proceed images NoNotice
  end.

(** ** The conversation state machine *)

(** User ids, and the identities of future and task objects. *)
Abbreviation UserId := nat (only parsing).
Abbreviation FutId := nat (only parsing).
Abbreviation TaskId := nat (only parsing).

(** [class StylizationRequest(StatesGroup)], in declaration order.  The
    raw state of a user is [option StylizationRequest]; [None] is the
    framework's "no state". *)
Inductive StylizationRequest :=
| waiting_for_style_chosen
| waiting_for_images
| processing.

#[global] Instance StylizationRequest_eq_dec : EqDecision StylizationRequest.
Proof. solve_decision. Defined.

(** [StylizationRequest.next()]: the framework looks the current state
    name up in the group's list of states; a name that is not in the
    list (no state) gives index 0, and an index past the end gives no
    state. *)
Definition StatesGroup_next (cur : option StylizationRequest)
  : option StylizationRequest :=
  match cur with
  | None => Some waiting_for_style_chosen
  | Some waiting_for_style_chosen => Some waiting_for_images
  | Some waiting_for_images => Some processing
  | Some processing => None
  end.

(** ** Futures and tasks *)

(** Exceptions a worker computation can end with, as the [except]
    clauses of the handlers tell them apart.  The two size errors are
    taken to be subclasses of [ImageProcessingError] (inference.py
    declares them); only a log line of [cancel_handler] depends on it. *)
Inductive InferenceError :=
| ImageTooBigError
| ImageTooSmallError
| ImageProcessingError     (* any other ImageProcessingError *)
| UnexpectedError.         (* any other Exception *)

(** The state of an asyncio future returned by [run_in_executor]. *)
Inductive Future :=
| Pending
| Cancelled
| Returned (results : list string)   (* os.listdir(task.results_dir) *)
| Raised (exc : InferenceError).

#[global] Instance InferenceError_eq_dec : EqDecision InferenceError.
Proof. solve_decision. Defined.
#[global] Instance Future_eq_dec : EqDecision Future.
Proof. solve_decision. Defined.

(** [future.cancelled()] and [future.done()] *)
Definition cancelled (f : Future) : bool :=
  match f with Cancelled => true | _ => false end.
Definition done (f : Future) : bool :=
  match f with Pending => false | _ => true end.

(** [future.cancel()]: only a pending future changes. *)
Definition cancel (f : Future) : Future :=
  match f with Pending => Cancelled | _ => f end.

(** A [Task] object: its type, the files downloaded into [task.dataroot]
    (index and extension), and how often [task.done()] was called. *)
Record Task := mkTask {
  task_type_of : TaskType;
  dataroot : list (nat * string);
  done_calls : nat }.

(** ** Replies *)

Inductive Reply :=
| Welcome (greeting : bool)
| NothingToCancel
| ProcessingCancelled
| AlreadyDone
| ScheduledCancelled
| StyleAccepted (task_type : TaskType) (by_shortcut : bool) (max_pics : Z)
| UnsupportedFormat
| NoImages (how_many : string)
| OnlyOneImage
| PleaseWait (notice : Notice)
| TooBig
| TooSmall
| UnknownError
| ResultMedia (as_files : bool) (results : list string)
| HereIsTheResult
| NothingToDo (cur_state : option StylizationRequest)
| BadContent
| NotRecognized
| IncorrectMessage.

(** The literal text of the replies whose text is fixed in the source. *)
Definition reply_text (r : Reply) : option string :=
  match r with
  | NothingToCancel =>
      Some "Nothing to cancel. /request to start a new request."
  | ProcessingCancelled =>
      Some "The request in processing is cancelled. Start a new /request?"
  | AlreadyDone =>
      Some "The request is already done. Start a new /request?"
  | ScheduledCancelled =>
      Some "Current scheduled request is cancelled. Start a new /request?"
  | TooBig =>
      Some "Sorry, couldn't process your images: all or some of them are too big. Try another /request?"
  | TooSmall =>
      Some "Sorry, couldn't process your images: all or some of them are too small. Try another /request?"
  | UnknownError =>
      Some "Sorry, couldn't process your images due to unknown error. Try another /request?"
  | HereIsTheResult =>
      Some "Here is the result! Start a new /request?"
  | UnsupportedFormat =>
      Some "It's not an image file in a supported format. Currently supported formats: .jpg, .png."
  | _ => None
  end.

(** [needle in text] *)
Fixpoint contains (needle text : string) : bool :=
  String.prefix needle text
  || match text with
     | EmptyString => false
     | String _ rest => contains needle rest
     end.

(** ** The shared world *)

Inductive PyError := KeyError | RuntimeError | TypeError.

Record World := mkWorld {
  fsm_state : gmap UserId StylizationRequest;
  fsm_data : gmap UserId (TaskType * list Image);
  REQUESTS_IN_PROCESSING : gmap UserId FutId;
  futures : list Future;      (* a future's identity is its index *)
  tasks : list Task;          (* a task's identity is its index *)
  outbox : list (UserId * Reply);
  logs : list string;
  errors : list (UserId * PyError) }.

Definition get_state (u : UserId) (w : World) : option StylizationRequest :=
  fsm_state w !! u.

Definition with_state (u : UserId) (s : option StylizationRequest) (w : World) :=
  mkWorld (match s with Some x => <[u:=x]> (fsm_state w) | None => delete u (fsm_state w) end)
          (fsm_data w) (REQUESTS_IN_PROCESSING w) (futures w) (tasks w)
          (outbox w) (logs w) (errors w).

(** [state.finish()]: the state and the data of the user are dropped. *)
Definition finish (u : UserId) (w : World) :=
  mkWorld (delete u (fsm_state w)) (delete u (fsm_data w))
          (REQUESTS_IN_PROCESSING w) (futures w) (tasks w)
          (outbox w) (logs w) (errors w).

Definition with_data (u : UserId) (d : TaskType * list Image) (w : World) :=
  mkWorld (fsm_state w) (<[u:=d]> (fsm_data w)) (REQUESTS_IN_PROCESSING w)
          (futures w) (tasks w) (outbox w) (logs w) (errors w).

Definition with_registry (r : gmap UserId FutId) (w : World) :=
  mkWorld (fsm_state w) (fsm_data w) r (futures w) (tasks w)
          (outbox w) (logs w) (errors w).

Definition with_futures (fs : list Future) (w : World) :=
  mkWorld (fsm_state w) (fsm_data w) (REQUESTS_IN_PROCESSING w) fs (tasks w)
          (outbox w) (logs w) (errors w).

Definition with_tasks (ts : list Task) (w : World) :=
  mkWorld (fsm_state w) (fsm_data w) (REQUESTS_IN_PROCESSING w) (futures w) ts
          (outbox w) (logs w) (errors w).

Definition reply (u : UserId) (r : Reply) (w : World) :=
  mkWorld (fsm_state w) (fsm_data w) (REQUESTS_IN_PROCESSING w) (futures w)
          (tasks w) (outbox w ++ [(u, r)]) (logs w) (errors w).

Definition log (line : string) (w : World) :=
  mkWorld (fsm_state w) (fsm_data w) (REQUESTS_IN_PROCESSING w) (futures w)
          (tasks w) (outbox w) (logs w ++ [line]) (errors w).

Definition raise (u : UserId) (e : PyError) (w : World) :=
  mkWorld (fsm_state w) (fsm_data w) (REQUESTS_IN_PROCESSING w) (futures w)
          (tasks w) (outbox w) (logs w) (errors w ++ [(u, e)]).

(** [next()] on the FSM context of user [u] *)
Definition next (u : UserId) (w : World) : World :=
  with_state u (StatesGroup_next (get_state u w)) w.

(** The state of the future object [f]. *)
Definition future_state (f : FutId) (w : World) : Future :=
  default Pending (futures w !! f).

(** [task.done()] on the task object [t].  The hook may raise (the
    worker process can still hold the directory); every call site wraps
    it in [try ... except Exception] and logs under its own label. *)
Definition release (t : TaskId) (w : World) : World :=
  with_tasks (alter (fun k => mkTask (task_type_of k) (dataroot k) (S (done_calls k))) t (tasks w)) w.

Definition task_done_guarded (raises : bool) (label : string) (t : TaskId) (w : World) : World :=
  let w' := release t w in
  if raises then log ("got unexpected exception when cleaning up: " +:+ label) w'
  else w'.

(** Calls of [task.done()] on [t] so far. *)
Definition released (t : TaskId) (w : World) : nat :=
  match tasks w !! t with Some k => done_calls k | None => 0%nat end.

(** ** Inbound messages *)

Inductive ContentType := PHOTO | DOCUMENT | TEXT | OTHER_CONTENT.

Inductive Command :=
| start | help | about | commands | request
| cancel_command
| p2st | p2avg | p2am | p2ac | p2gu
| other_command.

#[global] Instance ContentType_eq_dec : EqDecision ContentType.
Proof. solve_decision. Defined.
#[global] Instance Command_eq_dec : EqDecision Command.
Proof. solve_decision. Defined.

(** A message as the filters and handlers look at it: the text
    predicates that the framework's [Text] and command filters evaluate
    are fields. *)
Record Message := mkMessage {
  from_user : UserId;
  content_type : ContentType;
  command : option Command;        (* message.get_command(pure=True) *)
  text_contains_cancel : bool;     (* Text(contains='cancel', ignore_case=True) *)
  text_contains_OK : bool;         (* Text(contains='OK', ignore_case=True) *)
  text_button : option TaskType;   (* first label of task_types_to_buttons in the text *)
  text_results_as_files : bool;    (* "get results as files" in message.text.lower() *)
  file : nat;                      (* message.photo[-1] or message.document *)
  mime_type : string }.            (* message.document.mime_type *)

Definition shortcuts_to_task_types (c : Command) : option TaskType :=
  match c with
  | p2st => Some style_transfer
  | p2avg => Some photo2van_gogh
  | p2am => Some photo2monet
  | p2ac => Some photo2cezanne
  | p2gu => Some photo2ukiyoe
  | _ => None
  end.

(** [commands=['start', 'help', 'about', 'commands', 'request']] *)
Definition is_welcome_command (c : option Command) : bool :=
  match c with
  | Some (start | help | about | commands | request) => true
  | _ => false
  end.

Definition is_cancel_command (c : option Command) : bool :=
  match c with Some cancel_command => true | _ => false end.

Definition is_shortcut (c : option Command) : bool :=
  match c with
  | Some c => bool_decide (is_Some (shortcuts_to_task_types c))
  | None => false
  end.

Definition is_image (ct : ContentType) : bool :=
  match ct with PHOTO | DOCUMENT => true | _ => false end.

Definition is_text (ct : ContentType) : bool :=
  match ct with TEXT => true | _ => false end.

(** [BAD_CONTENT]: every content type but photo, document and text. *)
Definition is_bad_content (ct : ContentType) : bool :=
  match ct with OTHER_CONTENT => true | _ => false end.

(** ** Dispatch *)

Inductive Handler :=
| send_welcome_h
| cancel_handler_h
| style_chosen_handler_h
| save_images_as_mediagroup_h
| process_images_h
| image_sent_at_wrong_time_handler_h
| bad_content_handler_h
| any_other_message_handler_h.

(** The first registered handler whose filters accept the message, in
    the order of the [@dp.message_handler] registrations.  A
    registration without [state=] carries the framework's default state
    filter, which accepts only a user without a state; [state='*']
    accepts every state.  A registration without [content_types=]
    accepts text messages only. *)
Definition dispatch (cur : option StylizationRequest) (m : Message) : Handler :=
  let text := is_text (content_type m) in
  let image := is_image (content_type m) in
  if text && is_welcome_command (command m) && bool_decide (cur = None)
  then send_welcome_h
  else if text && (text_contains_cancel m || is_cancel_command (command m))
  then cancel_handler_h
  else if text
          && ((bool_decide (is_Some (text_button m))
               && bool_decide (cur = Some waiting_for_style_chosen))
              || (is_shortcut (command m) && bool_decide (cur = None)))
  then style_chosen_handler_h
  else if image && bool_decide (cur = Some waiting_for_images)
  then save_images_as_mediagroup_h
  else if text && text_contains_OK m && bool_decide (cur = Some waiting_for_images)
  then process_images_h
  else if image then image_sent_at_wrong_time_handler_h
  else if is_bad_content (content_type m) then bad_content_handler_h
  else any_other_message_handler_h.

(** ** The handlers that run without suspension *)

Definition send_welcome (m : Message) (w : World) : World :=
  let u := from_user m in
  let w := with_state u (Some waiting_for_style_chosen) w in
  reply u (Welcome (negb (bool_decide (command m = Some request)))) w.

(** [REQUESTS_IN_PROCESSING.pop(key, None)] *)
Definition pop (u : UserId) (r : gmap UserId FutId) : option FutId * gmap UserId FutId :=
  (r !! u, delete u r).

Definition cancel_handler (m : Message) (w : World) : World :=
  let u := from_user m in
  match get_state u w with
  | None => reply u NothingToCancel w
  | Some current_state =>
      let w := log "Cancelling state" w in
      let w := finish u w in
      let '(future, registry) := pop u (REQUESTS_IN_PROCESSING w) in
      let w := with_registry registry w in
      match future with
      | Some future =>
          (* future.cancel() *)
          let w := with_futures (alter cancel future (futures w)) w in
          let w := log "Future cancelling requested" w in
          (* await future *)
          let w :=
            match future_state future w with
            | Cancelled => log "Future cancelled" w
            | Raised (ImageTooBigError | ImageTooSmallError | ImageProcessingError) =>
                log "got exception when awaiting cancelled inference" w
            | Raised UnexpectedError =>
                log "got unexpected exception when awaiting cancelled inference" w
            | _ => w
            end in
          if cancelled (future_state future w) then reply u ProcessingCancelled w
          else if done (future_state future w) then reply u AlreadyDone w
          else reply u ScheduledCancelled w
      | None => reply u ScheduledCancelled w
      end
  end.

Definition style_chosen_handler (m : Message) (w : World) : World :=
  let u := from_user m in
  let continue (by_shortcut : bool) (task_type : TaskType) (w : World) :=
    let w := with_data u (task_type, []) w in
    let w := next u w in
    reply u (StyleAccepted task_type by_shortcut
                           (get_max_pics_per_request task_type)) w in
  match command m with
  | Some shortcut =>
      let w := with_state u (Some waiting_for_style_chosen) w in
      match shortcuts_to_task_types shortcut with
      | Some task_type => continue true task_type w
      | None => raise u KeyError w
      end
  | None =>
      match text_button m with
      | Some task_type => continue false task_type w
      | None => raise u RuntimeError w
      end
  end.

Definition save_images_as_mediagroup (m : Message) (w : World) : World :=
  let u := from_user m in
  let append (ext : string) (w : World) :=
    match fsm_data w !! u with
    | Some (task_type, images) =>
        with_data u (task_type, images ++ [mkImage (file m) ext]) w
    | None => raise u KeyError w
    end in
  match content_type m with
  | PHOTO => append ".jpg" w
  | DOCUMENT =>
      if String.eqb (mime_type m) "image/jpeg" then append ".jpg" w
      else if String.eqb (mime_type m) "image/png" then append ".png" w
      else
        let w := reply u UnsupportedFormat w in
        log "got file with currently unsupported mime_type" w
  | _ => raise u TypeError w
  end.

Definition image_sent_at_wrong_time_handler (m : Message) (w : World) : World :=
  let u := from_user m in
  match get_state u w with
  | Some waiting_for_images => raise u RuntimeError w
  | cur_state => reply u (NothingToDo cur_state) w
  end.

Definition bad_content_handler (m : Message) (w : World) : World :=
  reply (from_user m) BadContent w.

Definition any_other_message_handler (m : Message) (w : World) : World :=
  let u := from_user m in
  match get_state u w with
  | None => reply u NotRecognized w
  | Some _ => reply u IncorrectMessage w
  end.

(** ** [process_images] *)

(** Where a [process_images] coroutine is suspended, with the local
    variables it still needs. *)
Inductive Frame :=
| AtSleep (as_files : bool)
    (* line 220: await asyncio.sleep(1) *)
| AtPleaseWait (as_files : bool) (task_type : TaskType) (images : list Image)
    (* line 272: await message.answer(... "Please wait ...") *)
| AtDownload (as_files : bool) (task : TaskId) (images : list Image) (i : nat)
    (* line 281: await image.download(path), iteration i *)
| AtFuture (as_files : bool) (task : TaskId) (future : FutId)
    (* line 306: await future *)
| AtMediaGroup (task : TaskId) (future : FutId)
    (* line 333: await message.answer_media_group(...) *)
| AtLastAnswer (task : TaskId) (future : FutId)
    (* lines 313, 319, 325, 336: the last await before [finally] *)
| Finished.

(** [REQUESTS_IN_PROCESSING.setdefault(key, value)] *)
Definition setdefault (u : UserId) (f : FutId) (r : gmap UserId FutId)
  : FutId * gmap UserId FutId :=
  match r !! u with
  | Some cur => (cur, r)
  | None => (f, <[u:=f]> r)
  end.

(** [Task(task_type)]: a new task object with an empty directory. *)
Definition new_task (task_type : TaskType) (w : World) : TaskId * World :=
  (length (tasks w), with_tasks (tasks w ++ [mkTask task_type [] 0]) w).

(** [image.download(path)] has written file [str(i) + ext]. *)
Definition downloaded (t : TaskId) (i : nat) (images : list Image) (w : World) : World :=
  match images !! i with
  | Some image =>
      with_tasks (alter (fun k => mkTask (task_type_of k)
                                         (dataroot k ++ [(i, image_ext image)])
                                         (done_calls k)) t (tasks w)) w
  | None => w
  end.

(** Lines 291-304: hand the task to the pool and claim the user's slot;
    either the coroutine goes on to [await future] or it gives up. *)
Definition submit (u : UserId) (raises as_files : bool) (task : TaskId) (w : World)
  : Frame * World :=
  let future := length (futures w) in
  let w := with_futures (futures w ++ [Pending]) w in
  let '(cur_req, registry) := setdefault u future (REQUESTS_IN_PROCESSING w) in
  let w := with_registry registry w in
  if bool_decide (cur_req ≠ future) then
    let w := log "The request superseded by other one." w in
    (Finished, task_done_guarded raises "case #2" task w)
  else (AtFuture as_files task future, w).

(** Lines 337-345: the [finally] block. *)
Definition finally (u : UserId) (raises : bool) (task : TaskId) (future : FutId)
                   (w : World) : World :=
  let w :=
    if bool_decide (REQUESTS_IN_PROCESSING w !! u = Some future)
    then with_registry (snd (pop u (REQUESTS_IN_PROCESSING w))) w
    else w in
  task_done_guarded raises "case #3" task w.

(** Run the coroutine of user [u] from [fr] to its next suspension.
    [raises] tells whether [task.done()] raises if it is called in this
    segment.  [None]: the coroutine cannot be resumed (it awaits a
    pending future, or it has returned). *)
Definition process_images_resume (u : UserId) (raises : bool) (fr : Frame) (w : World)
  : option (Frame * World) :=
  match fr with
  | AtSleep as_files =>
      match fsm_data w !! u with
      | None => Some (Finished, raise u KeyError w)
      | Some (task_type, images) =>
          match check_images task_type images with
          | NoImagesSent how_many => Some (Finished, reply u (NoImages how_many) w)
          | OnlyOneImageSent => Some (Finished, reply u OnlyOneImage w)
          | Proceed images notice =>
              Some (AtPleaseWait as_files task_type images,
                    reply u (PleaseWait notice) w)
          end
      end
  | AtPleaseWait as_files task_type images =>
      let w := next u w in
      let '(task, w) := new_task task_type w in
      match images with
      | [] => Some (submit u raises as_files task w)
      | _ => Some (AtDownload as_files task images 0, w)
      end
  | AtDownload as_files task images i =>
      let w := downloaded task i images w in
      if bool_decide (get_state u w ≠ Some processing) then
        let w := log "The request superseded by another one while downloading images." w in
        Some (Finished, task_done_guarded raises "case #1" task w)
      else if bool_decide (S i < length images)%nat then
        Some (AtDownload as_files task images (S i), w)
      else Some (submit u raises as_files task w)
  | AtFuture as_files task future =>
      match future_state future w with
      | Pending => None
      | Returned results =>
          let w := log "Future is done" w in
          let w := log "Number of processed images" w in
          let w := finish u w in
          Some (AtMediaGroup task future, reply u (ResultMedia as_files results) w)
      | Cancelled =>
          let w := log "Future is cancelled by other handler" w in
          Some (Finished, finally u raises task future w)
      | Raised ImageTooBigError =>
          let w := log "got exception when awaiting inference" w in
          let w := finish u w in
          Some (AtLastAnswer task future, reply u TooBig w)
      | Raised ImageTooSmallError =>
          let w := log "got exception when awaiting inference" w in
          let w := finish u w in
          Some (AtLastAnswer task future, reply u TooSmall w)
      | Raised _ =>
          let w := log "got unexpected exception when awaiting inference" w in
          let w := finish u w in
          Some (AtLastAnswer task future, reply u UnknownError w)
      end
  | AtMediaGroup task future =>
      Some (AtLastAnswer task future, reply u HereIsTheResult w)
  | AtLastAnswer task future =>
      Some (Finished, finally u raises task future w)
  | Finished => None
  end.

(** ** Dispatching a message *)

(** Run the handler chosen for [m]; [process_images] starts a coroutine
    that runs up to its [sleep]. *)
Definition handle (m : Message) (w : World) : World * option Frame :=
  match dispatch (get_state (from_user m) w) m with
  | send_welcome_h => (send_welcome m w, None)
  | cancel_handler_h => (cancel_handler m w, None)
  | style_chosen_handler_h => (style_chosen_handler m w, None)
  | save_images_as_mediagroup_h => (save_images_as_mediagroup m w, None)
  | process_images_h => (w, Some (AtSleep (text_results_as_files m)))
  | image_sent_at_wrong_time_handler_h => (image_sent_at_wrong_time_handler m w, None)
  | bad_content_handler_h => (bad_content_handler m w, None)
  | any_other_message_handler_h => (any_other_message_handler m w, None)
  end.

(** ** The whole bot *)

Record System := mkSystem {
  world : World;
  running : list (UserId * Frame) }.   (* process_images coroutines *)

Definition initial : System :=
  mkSystem (mkWorld ∅ ∅ ∅ [] [] [] [] []) [].

(** What the worker pool can make of a pending future. *)
Definition is_outcome (f : Future) : bool :=
  match f with Returned _ | Raised _ => true | _ => false end.

Inductive Label :=
| Deliver (m : Message)
| Resume (i : nat) (raises : bool)
| Complete (future : FutId) (outcome : Future).

Inductive step : System → Label → System → Prop :=
| step_deliver s m :
    step s (Deliver m)
         (mkSystem (fst (handle m (world s)))
                   (running s ++ match snd (handle m (world s)) with
                                 | Some fr => [(from_user m, fr)]
                                 | None => []
                                 end))
| step_resume s i raises u fr fr' w' :
    running s !! i = Some (u, fr) →
    process_images_resume u raises fr (world s) = Some (fr', w') →
    step s (Resume i raises) (mkSystem w' (<[i:=(u, fr')]> (running s)))
| step_complete s future outcome :
    futures (world s) !! future = Some Pending →
    is_outcome outcome = true →
    step s (Complete future outcome)
         (mkSystem (with_futures (<[future:=outcome]> (futures (world s))) (world s))
                   (running s)).

Inductive reachable : System → Prop :=
| reachable_initial : reachable initial
| reachable_step s l s' : reachable s → step s l s' → reachable s'.

(** ** Auxiliary notions used in the statements *)

(** The extension [save_images_as_mediagroup] picks, if any. *)
Definition accepted_ext (m : Message) : option string :=
  match content_type m with
  | PHOTO => Some ".jpg"
  | DOCUMENT =>
      if String.eqb (mime_type m) "image/jpeg" then Some ".jpg"
      else if String.eqb (mime_type m) "image/png" then Some ".png"
      else None
  | _ => None
  end.

(** Two worlds that differ in the log at most. *)
Definition same_but_logs (w1 w2 : World) : Prop :=
  fsm_state w1 = fsm_state w2 ∧ fsm_data w1 = fsm_data w2
  ∧ REQUESTS_IN_PROCESSING w1 = REQUESTS_IN_PROCESSING w2
  ∧ futures w1 = futures w2 ∧ tasks w1 = tasks w2
  ∧ outbox w1 = outbox w2 ∧ errors w1 = errors w2.

(** The line logged when [task.done()] raises at call site [label]. *)
Definition cleanup_line (label : string) : string :=
  "got unexpected exception when cleaning up: " +:+ label.


Definition frame_future (fr : Frame) : option nat :=
  match fr with
  | AtFuture _ _ future | AtMediaGroup _ future | AtLastAnswer _ future =>
      Some future
  | _ => None
  end.





(** The steps as functions, to run the bot on concrete inputs. *)
Definition deliver (m : Message) (s : System) : System :=
  mkSystem (fst (handle m (world s)))
           (running s ++ match snd (handle m (world s)) with
                         | Some fr => [(from_user m, fr)]
                         | None => []
                         end).

Definition resume (i : nat) (raises : bool) (s : System) : System :=
  match running s !! i with
  | Some (u, fr) =>
      match process_images_resume u raises fr (world s) with
      | Some (fr', w') => mkSystem w' (<[i:=(u, fr')]> (running s))
      | None => s
      end
  | None => s
  end.

Definition complete (future : nat) (outcome : Future) (s : System) : System :=
  match futures (world s) !! future with
  | Some Pending =>
      if is_outcome outcome
      then mkSystem (with_futures (<[future:=outcome]> (futures (world s))) (world s))
                    (running s)
      else s
  | _ => s
  end.

(** The registry entries of user [u]. *)
Definition entries_of (u : nat) (registry : gmap nat nat) : list (nat * nat) :=
  filter (λ entry, entry.1 = u) (map_to_list registry).

(** Every registered future is a future object of the world. *)
Definition registry_valid (w : World) : Prop :=
  ∀ u f : nat,
    REQUESTS_IN_PROCESSING w !! u = Some f → (f < length (futures w))%nat.

(** ** Concrete worlds for the examples *)

Definition eleven_images : list Image :=
  map (fun i => mkImage i ".jpg") (seq 0 11).

(** A user for the examples. *)
Definition alice : UserId := 7%nat.

Definition world_with_images (u : UserId) (task_type : TaskType)
    (images : list Image) : World :=
  mkWorld {[u := waiting_for_images]} {[u := (task_type, images)]} ∅ [] [] [] [] [].

(** A document upload with an unsupported mime type. *)
Definition gif_document : Message :=
  mkMessage alice DOCUMENT None false false None false 41 "image/gif".

(** [alice] in [processing] with one image of a preset request; task 0
    is materialized and future 0, in state [f], is registered. *)
Definition world_processing (f : Future) : World :=
  mkWorld {[alice := processing]}
          {[alice := (photo2monet, [mkImage 0 ".jpg"])]}
          {[alice := 0%nat]}
          [f]
          [mkTask photo2monet [(0%nat, ".jpg")] 0]
          [] [] [].

(** A "/cancel" text message of [alice]. *)
Definition cancel_message : Message :=
  mkMessage alice TEXT (Some cancel_command) true false None false 0 "".

(** [alice] has submitted two images of a preset request; task 0 exists
    and nothing is downloaded yet.  [cur] is her state by now. *)
Definition world_downloading (cur : option StylizationRequest) : World :=
  mkWorld (match cur with Some s => {[alice := s]} | None => ∅ end)
          ∅ ∅ []
          [mkTask photo2monet [] 0]
          [(alice, PleaseWait NoNotice)] [] [].


(** [alice] asks for the Monet preset by its shortcut, sends one photo
    and presses OK; her coroutine has passed its sleep and its "Please
    wait" reply and is downloading the photo into task 0. *)
Definition monet_shortcut : Message :=
  mkMessage alice TEXT (Some p2am) false false None false 0 "".
Definition one_photo : Message :=
  mkMessage alice PHOTO None false false None false 5 "".
Definition ok_message : Message :=
  mkMessage alice TEXT None false true None false 0 "".

Definition alice_waits_to_download : System :=
  resume 0 false
    (deliver ok_message (deliver one_photo (deliver monet_shortcut initial))).

Definition alice_downloading : System := resume 0 false alice_waits_to_download.

(** As [world_processing], with a second task (task 1) of [alice] whose
    only image is being downloaded while future 0 is still registered. *)
Definition world_second_task (f : Future) : World :=
  mkWorld {[alice := processing]}
          {[alice := (photo2monet, [mkImage 0 ".jpg"])]}
          {[alice := 0%nat]}
          [f]
          [mkTask photo2monet [(0%nat, ".jpg")] 0; mkTask photo2monet [] 0]
          [] [] [].

(** [alice] awaits her registered pending future 0. *)
Definition alice_in_flight : System :=
  mkSystem (world_processing Pending) [(alice, AtFuture false 0 0)].

(** The whole run of [alice]'s preset request: download, submission,
    the worker returning one file, both result messages, [finally]. *)
Definition alice_served : System :=
  resume 0 false
    (resume 0 false
       (resume 0 false
          (complete 0 (Returned ["0.png"])
             (resume 0 false alice_downloading)))).

(** ** Further parts of the bot *)

(** [task_types_to_buttons]: the keyboard label of each job type, and
    the job types in the order of the dict. *)
Definition task_types_to_buttons (task_type : TaskType) : string :=
  match task_type with
  | style_transfer => "Style transfer to one image from another"
  | photo2van_gogh => "Artist: Vincent Willem van Gogh"
  | photo2monet => "Artist: Oscar-Claude Monet"
  | photo2cezanne => "Artist: Paul Cézann"
  | photo2ukiyoe => "Genre: Ukiyo-e"
  end.

Definition task_types : list TaskType :=
  [style_transfer; photo2van_gogh; photo2monet; photo2cezanne; photo2ukiyoe].

(** Lines 153-158 of [style_chosen_handler]: the first job type whose
    label occurs in the text; [None] is the [RuntimeError] of the
    [for ... else]. *)
Definition button_in_text (text : string) : option TaskType :=
  find (fun task_type => contains (task_types_to_buttons task_type) text) task_types.


(** Resume one coroutine [n] times in a row, with nothing in between. *)
Fixpoint resume_coroutine (n : nat) (u : nat) (raises : bool) (fr : Frame) (w : World)
  : Frame * World :=
  match n with
  | O => (fr, w)
  | S n =>
      match process_images_resume u raises fr w with
      | Some (fr', w') => resume_coroutine n u raises fr' w'
      | None => (fr, w)
      end
  end.

(** The files [process_images] writes for the images from position [i]
    on: [str(i) + ext] for each. *)
Definition files_from (i : nat) (images : list Image) : list (nat * string) :=
  zip (seq i (length images - i)) (image_ext <$> drop i images).

(** The buffer entry [save_images_as_mediagroup] makes of an upload. *)
Definition buffered (m : Message) : option Image :=
  mkImage (file m) <$> accepted_ext m.

(** A message that is the uploads' handler's business: an accepted
    upload of user [u]. *)
Definition accepted_from (u : nat) (m : Message) : Prop :=
  from_user m = u ∧ is_Some (accepted_ext m).

(** The number of running coroutines that hold future [f]. *)
Definition awaits (f : nat) (fr : Frame) : nat :=
  if decide (frame_future fr = Some f) then 1%nat else 0%nat.

Definition awaiting (f : nat) (cs : list (nat * Frame)) : nat :=
  sum_list_with (awaits f ∘ snd) cs.

(** Whose step a label is: the sender of a message, the user of a
    resumed coroutine; a worker completion is nobody's. *)
Definition label_user (s : System) (l : Label) : option nat :=
  match l with
  | Deliver m => Some (from_user m)
  | Resume i _ => fst <$> running s !! i
  | Complete _ _ => None
  end.

(** [alice]'s request of [alice_downloading] one step further: the
    photo is downloaded and the future submitted and registered. *)
Definition alice_submitted : System := resume 0 false alice_downloading.

(** * Properties *)

(** ** Capacity rule *)

(** [lia] with [/] and [mod] by constants. *)
Ltac Zify.zify_post_hook ::= Z.div_mod_to_equations.

Lemma py_del_from_take {A} (k : Z) (l : list A) :
  0 ≤ k ≤ len l →
  py_del_from k l = take (Z.to_nat k) l ∧ len (take (Z.to_nat k) l) = k.
Proof.
  intros Hk. unfold py_del_from, len in *.
  assert ((k <? 0) = false) as -> by lia.
  rewrite Z.min_l by lia. split; [done|].
  rewrite length_take. lia.
Qed.

Lemma take_len {A} (l : list A) : take (Z.to_nat (len l)) l = l.
Proof. unfold len. rewrite Nat2Z.id. apply firstn_all. Qed.

Lemma get_max_pics_per_request_10 task_type :
  get_max_pics_per_request task_type = 10.
Proof. by destruct task_type. Qed.

Lemma check_images_style images :
  2 ≤ len images →
  check_images style_transfer images =
    (let n := len images in
     let k := 2 * (Z.min n 10 / 2) in
     Proceed (take (Z.to_nat k) images)
             (if n =? k then NoNotice
              else PairNotice (negb (n mod 2 =? 0)) (10 <? n) 10 (n - k))).
Proof.
  intros Hn. unfold check_images.
  destruct images as [|a l]; [unfold len in Hn; simpl in Hn; lia|].
  rewrite get_max_pics_per_request_10. cbn [is_style_transfer].
  set (n := len (a :: l)) in *. cbv zeta.
  assert ((n =? 1) = false) as -> by lia.
  destruct (n mod 2 =? 0) eqn:Hodd; destruct (10 <? n) eqn:Hmany; cbn [negb orb].
  - assert (2 * (Z.min n 10 / 2) = 10) as Hk by lia.
    assert (Z.max (n mod 2) (n - 10) = n - 10) as Ha by lia.
    rewrite Hk, Ha. assert ((n =? 10) = false) as -> by lia.
    destruct (py_del_from_take (n - (n - 10)) (a :: l)) as [-> _]; [fold n; lia|].
    by replace (n - (n - 10)) with 10 by lia.
  - assert (2 * (Z.min n 10 / 2) = n) as Hk by lia.
    rewrite Hk, Z.eqb_refl. unfold n. by rewrite take_len.
  - assert (2 * (Z.min n 10 / 2) = 10) as Hk by lia.
    assert (Z.max (n mod 2) (n - 10) = n - 10) as Ha by lia.
    rewrite Hk, Ha. assert ((n =? 10) = false) as -> by lia.
    destruct (py_del_from_take (n - (n - 10)) (a :: l)) as [-> _]; [fold n; lia|].
    by replace (n - (n - 10)) with 10 by lia.
  - assert (2 * (Z.min n 10 / 2) = n - 1) as Hk by lia.
    assert (Z.max (n mod 2) (n - 10) = 1) as Ha by lia.
    rewrite Hk, Ha. assert ((n =? n - 1) = false) as -> by lia.
    destruct (py_del_from_take (n - 1) (a :: l)) as [-> _]; [fold n; lia|].
    by replace (n - (n - 1)) with 1 by lia.
Qed.

Lemma check_images_preset task_type images :
  is_style_transfer task_type = false →
  1 ≤ len images →
  check_images task_type images =
    (let n := len images in
     let k := Z.min n 10 in
     Proceed (take (Z.to_nat k) images)
             (if n =? k then NoNotice else LimitNotice 10 (n - k))).
Proof.
  intros Hp Hn. unfold check_images.
  destruct images as [|a l]; [unfold len in Hn; simpl in Hn; lia|].
  rewrite get_max_pics_per_request_10, Hp.
  set (n := len (a :: l)) in *. cbv zeta.
  destruct (10 <? n) eqn:Hmany.
  - rewrite Z.min_r by lia. assert ((n =? 10) = false) as -> by lia.
    by destruct (py_del_from_take 10 (a :: l)) as [-> _]; [fold n; lia|].
  - rewrite Z.min_l by lia. rewrite Z.eqb_refl. unfold n. by rewrite take_len.
Qed.

(** C1.  Submission capacity rule.  When [process_images] wakes up from
    its sleep with [n] buffered images, the limit is 10 for every job
    type.  With fewer than two images for style transfer, or none for
    the other types, the handler replies with a rejection and returns,
    and no state of the FSM changes (the user stays in
    [waiting_for_images]).  Otherwise it keeps the first [k] images,
    where [k] is the largest count that is at most [n], at most the
    limit and, for style transfer, even; the [n - k] trailing images
    are dropped, and the reply announces [n - k] whenever it is not
    zero. *)
Theorem capacity_rule (u : UserId) (raises as_files : bool) (w : World)
    (task_type : TaskType) (images : list Image) :
  fsm_data w !! u = Some (task_type, images) →
  let n := len images in
  let limit := get_max_pics_per_request task_type in
  let paired := is_style_transfer task_type in
  let minimum := if paired then 2 else 1 in
  let k := if paired then 2 * (Z.min n limit / 2) else Z.min n limit in
  limit = 10
  ∧ (n < minimum →
       let r := if n =? 0 then NoImages (if paired then "two" else "one")
                else OnlyOneImage in
       process_images_resume u raises (AtSleep as_files) w
         = Some (Finished, reply u r w)
       ∧ fsm_state (reply u r w) = fsm_state w
       ∧ fsm_data (reply u r w) = fsm_data w)
  ∧ (minimum ≤ n →
       process_images_resume u raises (AtSleep as_files) w
         = Some (AtPleaseWait as_files task_type (take (Z.to_nat k) images),
                 reply u (PleaseWait
                            (if n =? k then NoNotice
                             else if paired
                                  then PairNotice (negb (n mod 2 =? 0)) (limit <? n)
                                                  limit (n - k)
                                  else LimitNotice limit (n - k))) w)
       ∧ len (take (Z.to_nat k) images) = k
       ∧ 0 < k ≤ n ∧ k ≤ limit ∧ (paired = true → k mod 2 = 0)
       ∧ (∀ j, j ≤ n → j ≤ limit → (paired = true → j mod 2 = 0) → j ≤ k)
       ∧ (paired = false → limit < n → n - k = n - limit)).
Proof.
  intros Hdata. cbv zeta. rewrite get_max_pics_per_request_10.
  pose proof (Nat2Z.is_nonneg (length images)) as Hlen. fold (len images) in Hlen.
  split; [done|]. split.
  - intros Hn. unfold process_images_resume. rewrite Hdata.
    destruct images as [|a [|b l]].
    + by destruct task_type.
    + destruct task_type; try done.
      all: unfold len in Hn; simpl in Hn; lia.
    + unfold len in Hn. simpl in Hn. destruct (is_style_transfer task_type); lia.
  - intros Hn.
    assert (len (take (Z.to_nat (len images `min` 10)) images) = len images `min` 10
            ∧ len (take (Z.to_nat (2 * (len images `min` 10 / 2))) images)
              = 2 * (len images `min` 10 / 2)) as [Hk1 Hk2].
    { unfold len in *. rewrite !length_take. lia. }
    unfold process_images_resume. rewrite Hdata.
    destruct (is_style_transfer task_type) eqn:Hp.
    + destruct task_type; try done.
      rewrite check_images_style by done. cbv zeta.
      repeat split; try done; try lia.
    + rewrite check_images_preset by done. cbv zeta.
      repeat split; try done; try lia.
Qed.

Lemma capacity_rule_witness :
  fsm_data (world_with_images alice style_transfer eleven_images) !! alice
    = Some (style_transfer, eleven_images)
  ∧ process_images_resume alice false (AtSleep false)
      (world_with_images alice style_transfer eleven_images)
    = Some (AtPleaseWait false style_transfer (take 10 eleven_images),
            reply alice (PleaseWait (PairNotice true true 10 1))
                  (world_with_images alice style_transfer eleven_images)).
Proof.
  split; [reflexivity|].
  pose proof (capacity_rule alice false false
                (world_with_images alice style_transfer eleven_images)
                style_transfer eleven_images eq_refl) as H.
  cbv zeta in H. destruct H as (_ & _ & H).
  destruct H as (H & _); [vm_compute; discriminate|].
  exact H.
Defined.

(** ** Ingestion *)

Lemma dispatch_upload cur m :
  cur = Some waiting_for_images →
  is_image (content_type m) = true →
  dispatch cur m = save_images_as_mediagroup_h.
Proof. intros -> Him. unfold dispatch. by destruct (content_type m). Qed.

(** C9.  A photo or document that arrives while the user is in
    [waiting_for_images] goes to [save_images_as_mediagroup].  A
    document whose mime type is neither image/jpeg nor image/png gets
    the "not a supported format" reply and changes neither the buffer
    nor the state; every other upload is appended at the end of the
    buffer with the extension of its format, so what is buffered always
    has an allowed format. *)
Theorem ingestion_allow_list (m : Message) (w : World) :
  get_state (from_user m) w = Some waiting_for_images →
  is_image (content_type m) = true →
  let u := from_user m in
  snd (handle m w) = None
  ∧ match accepted_ext m with
    | None =>
        content_type m = DOCUMENT
        ∧ mime_type m ≠ "image/jpeg" ∧ mime_type m ≠ "image/png"
        ∧ fsm_data (fst (handle m w)) = fsm_data w
        ∧ fsm_state (fst (handle m w)) = fsm_state w
        ∧ outbox (fst (handle m w)) = outbox w ++ [(u, UnsupportedFormat)]
    | Some ext =>
        (content_type m = PHOTO ∨ mime_type m = "image/jpeg"
         ∨ mime_type m = "image/png")
        ∧ (ext = ".jpg" ∨ ext = ".png")
        ∧ ∀ task_type images,
            fsm_data w !! u = Some (task_type, images) →
            fst (handle m w)
              = with_data u (task_type, images ++ [mkImage (file m) ext]) w
    end.
Proof.
  intros Hst Him u. unfold handle. rewrite (dispatch_upload _ _ Hst Him).
  split; [done|]. unfold accepted_ext, save_images_as_mediagroup. cbn [fst].
  destruct (content_type m) eqn:Hct; try done.
  - split; [by left|]. split; [by left|]. intros tt images Hd.
    fold u. by rewrite Hd.
  - destruct (String.eqb_spec (mime_type m) "image/jpeg") as [Hj|Hj].
    { split; [by right; left|]. split; [by left|]. intros tt images Hd.
      fold u. by rewrite Hd. }
    destruct (String.eqb_spec (mime_type m) "image/png") as [Hp|Hp].
    { split; [by right; right|]. split; [by right|]. intros tt images Hd.
      fold u. by rewrite Hd. }
    done.
Qed.

Lemma ingestion_allow_list_witness :
  get_state alice (world_with_images alice photo2monet []) = Some waiting_for_images
  ∧ fsm_data (fst (handle gif_document (world_with_images alice photo2monet [])))
    = fsm_data (world_with_images alice photo2monet [])
  ∧ outbox (fst (handle gif_document (world_with_images alice photo2monet [])))
    = [(alice, UnsupportedFormat)].
Proof.
  split; [reflexivity|].
  pose proof (ingestion_allow_list gif_document
                (world_with_images alice photo2monet []) eq_refl eq_refl) as H.
  cbv zeta in H. destruct H as (_ & H).
  change (accepted_ext gif_document) with (@None string) in H.
  cbv beta iota in H. destruct H as (_ & _ & _ & Hd & _ & Ho).
  split; [exact Hd | exact Ho].
Defined.

(** ** The cancel handler *)

Lemma future_state_after_cancel (f : FutId) (fs : list Future) (w : World) :
  future_state f (with_futures (alter cancel f fs) w)
  = match fs !! f with Some x => cancel x | None => Pending end.
Proof.
  unfold future_state. cbn [futures with_futures].
  rewrite list_lookup_alter_eq. by destruct (fs !! f).
Qed.

(** The world [cancel_handler] leaves behind when the user has a state
    and a registered future, in terms of the future's state before. *)
Lemma cancel_handler_registered (m : Message) (w : World) s f :
  get_state (from_user m) w = Some s →
  REQUESTS_IN_PROCESSING w !! from_user m = Some f →
  let u := from_user m in
  let w1 :=
    log "Future cancelling requested"
      (with_futures (alter cancel f (futures w))
         (with_registry (delete u (REQUESTS_IN_PROCESSING w))
            (finish u (log "Cancelling state" w)))) in
  cancel_handler m w =
    match futures w !! f with
    | Some (Pending | Cancelled) =>
        reply u ProcessingCancelled (log "Future cancelled" w1)
    | Some (Returned _) => reply u AlreadyDone w1
    | Some (Raised UnexpectedError) =>
        reply u AlreadyDone
          (log "got unexpected exception when awaiting cancelled inference" w1)
    | Some (Raised _) =>
        reply u AlreadyDone
          (log "got exception when awaiting cancelled inference" w1)
    | None => reply u ScheduledCancelled w1
    end.
Proof.
  intros Hs Hr. cbv zeta. unfold cancel_handler. rewrite Hs.
  unfold pop. cbn [REQUESTS_IN_PROCESSING finish log]. rewrite Hr.
  cbn [futures with_registry].
  assert (∀ line w', future_state f (log line w') = future_state f w') as Hlog by done.
  rewrite !Hlog, !future_state_after_cancel. cbn [futures finish log].
  destruct (futures w !! f) as [[| | |[]]|] eqn:E; cbn [cancel];
    rewrite ?Hlog, ?future_state_after_cancel; cbn [futures finish log];
    by rewrite ?E.
Qed.

(** ** What the release hook and the [finally] block leave alone *)

Lemma task_done_guarded_frame raises label t w :
  let w' := task_done_guarded raises label t w in
  fsm_state w' = fsm_state w ∧ fsm_data w' = fsm_data w
  ∧ REQUESTS_IN_PROCESSING w' = REQUESTS_IN_PROCESSING w
  ∧ futures w' = futures w ∧ outbox w' = outbox w ∧ errors w' = errors w.
Proof. unfold task_done_guarded. by destruct raises. Qed.

Lemma finally_frame u raises t f w :
  let w' := finally u raises t f w in
  fsm_state w' = fsm_state w ∧ fsm_data w' = fsm_data w
  ∧ futures w' = futures w ∧ outbox w' = outbox w ∧ errors w' = errors w.
Proof.
  unfold finally, task_done_guarded. by destruct raises; case_bool_decide.
Qed.

Lemma get_state_finally u' u raises t f w :
  get_state u' (finally u raises t f w) = get_state u' w.
Proof.
  unfold get_state. by destruct (finally_frame u raises t f w) as (-> & _).
Qed.

Lemma outbox_finally u raises t f w :
  outbox (finally u raises t f w) = outbox w.
Proof. by destruct (finally_frame u raises t f w) as (_ & _ & _ & -> & _). Qed.

Lemma get_state_finish u w : get_state u (finish u w) = None.
Proof. unfold get_state. cbn. apply lookup_delete_eq. Qed.

(** ** Failure outcomes *)

(** C8.  When the awaited future has raised, [process_images] finishes
    the user's state (no state, i.e. Idle) and sends one reply:
    "too big" for [ImageTooBigError], "too small" for
    [ImageTooSmallError], "unknown error" for anything else; each text
    names its cause and offers a new /request, and the rest of the
    coroutine neither replies again nor touches the state.  When the
    future is cancelled by the cancel handler instead, it is that
    handler which finishes the state and replies that the request is
    cancelled, again offering a new /request; the coroutine then returns
    without a reply of its own. *)
Theorem failure_paths (u : UserId) (raises as_files : bool)
    (task : TaskId) (future : FutId) (w : World) :
  (∀ exc, future_state future w = Raised exc →
     let r := match exc with
              | ImageTooBigError => TooBig
              | ImageTooSmallError => TooSmall
              | _ => UnknownError
              end in
     let cause := match exc with
                  | ImageTooBigError => "too big"
                  | ImageTooSmallError => "too small"
                  | _ => "unknown error"
                  end in
     ∃ w' w'' text,
       process_images_resume u raises (AtFuture as_files task future) w
         = Some (AtLastAnswer task future, w')
       ∧ get_state u w' = None
       ∧ outbox w' = outbox w ++ [(u, r)]
       ∧ reply_text r = Some text
       ∧ contains cause text = true
       ∧ contains "/request" text = true
       ∧ process_images_resume u raises (AtLastAnswer task future) w'
         = Some (Finished, w'')
       ∧ get_state u w'' = None
       ∧ outbox w'' = outbox w')
  ∧ (∀ m, from_user m = u →
     is_Some (get_state u w) →
     REQUESTS_IN_PROCESSING w !! u = Some future →
     futures w !! future = Some Pending →
     let w' := cancel_handler m w in
     ∃ w'' text,
       get_state u w' = None
       ∧ outbox w' = outbox w ++ [(u, ProcessingCancelled)]
       ∧ reply_text ProcessingCancelled = Some text
       ∧ contains "cancelled" text = true
       ∧ contains "/request" text = true
       ∧ process_images_resume u raises (AtFuture as_files task future) w'
         = Some (Finished, w'')
       ∧ get_state u w'' = None
       ∧ outbox w'' = outbox w').
Proof.
  split.
  - intros exc Hf. cbv zeta. unfold process_images_resume. rewrite Hf.
    destruct exc; eexists _, _, _; cbn [reply_text].
    all: split; [reflexivity|]; split; [apply get_state_finish|].
    all: split; [reflexivity|]; split; [reflexivity|].
    all: split; [reflexivity|]; split; [reflexivity|].
    all: split; [reflexivity|].
    all: rewrite get_state_finally, outbox_finally.
    all: split; [apply get_state_finish | reflexivity].
  - intros m <- [s Hs] Hr Hp. cbv zeta.
    rewrite (cancel_handler_registered m w s future Hs Hr). cbv zeta.
    rewrite Hp. eexists _, _. cbn [reply_text].
    split; [apply get_state_finish|]. split; [reflexivity|].
    split; [reflexivity|]. split; [reflexivity|]. split; [reflexivity|].
    split.
    + unfold process_images_resume.
      assert (∀ w', future_state future
                (reply (from_user m) ProcessingCancelled
                   (log "Future cancelled"
                      (log "Future cancelling requested"
                         (with_futures (alter cancel future (futures w)) w'))))
              = Cancelled) as ->; [|reflexivity].
      intros w'. unfold future_state. cbn. by rewrite list_lookup_alter_eq, Hp.
    + rewrite get_state_finally, outbox_finally.
      split; [apply get_state_finish | reflexivity].
Qed.

Lemma failure_paths_witness :
  (future_state 0 (world_processing (Raised ImageTooBigError))
     = Raised ImageTooBigError
   ∧ ∃ w',
       process_images_resume alice false (AtFuture false 0 0)
         (world_processing (Raised ImageTooBigError))
         = Some (AtLastAnswer 0 0, w')
       ∧ get_state alice w' = None
       ∧ outbox w' = [(alice, TooBig)])
  ∧ (futures (world_processing Pending) !! 0%nat = Some Pending
     ∧ get_state alice (cancel_handler cancel_message (world_processing Pending))
       = None
     ∧ outbox (cancel_handler cancel_message (world_processing Pending))
       = [(alice, ProcessingCancelled)]).
Proof.
  split.
  - split; [reflexivity|].
    destruct (failure_paths alice false false 0 0
                (world_processing (Raised ImageTooBigError))) as [H _].
    destruct (H ImageTooBigError eq_refl) as (w' & _ & _ & Hr & Hs & Ho & _).
    exists w'. repeat split; assumption.
  - split; [reflexivity|].
    destruct (failure_paths alice false false 0 0 (world_processing Pending))
      as [_ H].
    destruct (H cancel_message eq_refl (ex_intro _ processing eq_refl)
                eq_refl eq_refl) as (_ & _ & Hs & Ho & _).
    split; assumption.
Defined.

(** ** Release failures *)

Lemma same_but_logs_refl w : same_but_logs w w.
Proof. by repeat split. Qed.

Lemma task_done_guarded_raises label t w :
  same_but_logs (task_done_guarded false label t w) (task_done_guarded true label t w)
  ∧ logs (task_done_guarded true label t w)
    = logs (task_done_guarded false label t w) ++ [cleanup_line label].
Proof. by repeat split. Qed.

Lemma released_new_task t task_type w :
  released t (snd (new_task task_type w)) = released t w.
Proof.
  unfold released, new_task. cbn [snd tasks with_tasks].
  destruct (decide (t < length (tasks w))%nat) as [Hlt|Hge].
  - by rewrite lookup_app_l.
  - rewrite lookup_app_r by lia. rewrite (lookup_ge_None_2 (tasks w)) by lia.
    by destruct (t - length (tasks w))%nat as [|[|]].
Qed.

Lemma released_downloaded t task i images w :
  released t (downloaded task i images w) = released t w.
Proof.
  unfold released, downloaded. destruct (images !! i); [|done].
  cbn [tasks with_tasks]. destruct (decide (task = t)) as [->|Hne].
  - rewrite list_lookup_alter_eq. by destruct (tasks w !! t).
  - by rewrite list_lookup_alter_ne.
Qed.

Lemma submit_raises u as_files t w :
  fst (submit u false as_files t w) = fst (submit u true as_files t w)
  ∧ same_but_logs (snd (submit u false as_files t w)) (snd (submit u true as_files t w))
  ∧ (logs (snd (submit u true as_files t w)) = logs (snd (submit u false as_files t w))
     ∧ tasks (snd (submit u false as_files t w)) = tasks w
     ∨ logs (snd (submit u true as_files t w))
       = logs (snd (submit u false as_files t w)) ++ [cleanup_line "case #2"]).
Proof.
  unfold submit, setdefault. cbn [REQUESTS_IN_PROCESSING with_futures].
  destruct (REQUESTS_IN_PROCESSING w !! u) as [cur|]; cbn [fst snd];
    case_bool_decide; cbn [fst snd];
    repeat split; auto.
Qed.

(** C6.  Whether [task.done()] raises or not makes no difference to a
    segment of [process_images] except in the log: the coroutine reaches
    the same point (it returns normally, no exception escapes it), and
    state, data, registry, futures, tasks (with their release counts),
    replies and unhandled errors are the same.  Either the hook is not
    called in the segment, and then the logs agree too, or the raising
    run has logged exactly one more line, the "cleaning up" line of the
    call site. *)
Theorem release_failure_swallowed (u : UserId) (fr : Frame) (w : World) :
  match process_images_resume u false fr w, process_images_resume u true fr w with
  | Some (fr1, w1), Some (fr2, w2) =>
      fr1 = fr2
      ∧ same_but_logs w1 w2
      ∧ (logs w2 = logs w1 ∧ (∀ t, released t w1 = released t w)
         ∨ ∃ label, label ∈ ["case #1"; "case #2"; "case #3"]
                    ∧ logs w2 = logs w1 ++ [cleanup_line label])
  | None, None => True
  | _, _ => False
  end.
Proof.
  assert (∀ label t w0, label ∈ ["case #1"; "case #2"; "case #3"] →
            Finished = Finished
            ∧ same_but_logs (task_done_guarded false label t w0)
                            (task_done_guarded true label t w0)
            ∧ (logs (task_done_guarded true label t w0)
                 = logs (task_done_guarded false label t w0)
               ∧ (∀ t', released t' (task_done_guarded false label t w0) = released t' w)
               ∨ ∃ l, l ∈ ["case #1"; "case #2"; "case #3"]
                      ∧ logs (task_done_guarded true label t w0)
                        = logs (task_done_guarded false label t w0) ++ [cleanup_line l]))
    as Hcall.
  { intros label t w0 Hl. split; [done|]. split; [by repeat split|].
    right. by exists label. }
  assert (∀ as_files t w0, (∀ t', released t' w0 = released t' w) →
            match Some (submit u false as_files t w0), Some (submit u true as_files t w0) with
            | Some (fr1, w1), Some (fr2, w2) =>
                fr1 = fr2 ∧ same_but_logs w1 w2
                ∧ (logs w2 = logs w1 ∧ (∀ t, released t w1 = released t w)
                   ∨ ∃ label, label ∈ ["case #1"; "case #2"; "case #3"]
                              ∧ logs w2 = logs w1 ++ [cleanup_line label])
            | _, _ => False
            end) as Hsubmit.
  { intros as_files t w0 Hrel.
    destruct (submit_raises u as_files t w0) as (Hfr & Hsame & Hlogs).
    destruct (submit u false as_files t w0) as [fr1 w1],
             (submit u true as_files t w0) as [fr2 w2]. cbn [fst snd] in *.
    split; [done|]. split; [done|].
    destruct Hlogs as [[Hl Ht]|Hl]; [left|right].
    - split; [done|]. intros t'. rewrite <- Hrel. unfold released. by rewrite Ht.
    - exists "case #2". split; [repeat constructor|done]. }
  destruct fr as [as_files|as_files task_type images|as_files task images i
                  |as_files task future|task future|task future|];
    cbn [process_images_resume].
  - destruct (fsm_data w !! u) as [[task_type images]|].
    + destruct (check_images task_type images);
        (split; [done|]); (split; [apply same_but_logs_refl|]); by left.
    + split; [done|]. split; [apply same_but_logs_refl|]. by left.
  - destruct images as [|image images].
    + apply Hsubmit. intros t'. exact (released_new_task t' task_type (next u w)).
    + split; [done|]. split; [apply same_but_logs_refl|]. left. split; [done|].
      intros t'. exact (released_new_task t' task_type (next u w)).
  - case_bool_decide.
    + apply Hcall. repeat constructor.
    + case_bool_decide.
      * split; [done|]. split; [apply same_but_logs_refl|]. left. split; [done|].
        intros t'. apply released_downloaded.
      * apply Hsubmit. intros t'. apply released_downloaded.
  - destruct (future_state future w) as [| |results|[]]; try done.
    all: try (split; [done|]; split; [apply same_but_logs_refl|]; by left).
    apply Hcall. repeat constructor.
  - split; [done|]. split; [apply same_but_logs_refl|]. by left.
  - apply Hcall. repeat constructor.
  - done.
Qed.

(** ** Materialization *)

Lemma downloaded_frame t i images w :
  let w' := downloaded t i images w in
  fsm_state w' = fsm_state w ∧ fsm_data w' = fsm_data w
  ∧ REQUESTS_IN_PROCESSING w' = REQUESTS_IN_PROCESSING w
  ∧ futures w' = futures w ∧ outbox w' = outbox w ∧ errors w' = errors w
  ∧ length (tasks w') = length (tasks w).
Proof.
  unfold downloaded. destruct (images !! i); [|done].
  cbn. by rewrite length_alter.
Qed.

Lemma get_state_downloaded u t i images w :
  get_state u (downloaded t i images w) = get_state u w.
Proof. unfold get_state. by destruct (downloaded_frame t i images w) as (-> & _). Qed.

Lemma released_release t t' w :
  released t' (release t w)
  = if decide (t = t' ∧ t < length (tasks w))%nat then S (released t' w)
    else released t' w.
Proof.
  unfold released, release. cbn [tasks with_tasks].
  destruct (decide (t = t')) as [->|Hne].
  - rewrite list_lookup_alter_eq. destruct (tasks w !! t') as [k|] eqn:Hk.
    + apply lookup_lt_Some in Hk. by rewrite decide_True.
    + apply lookup_ge_None in Hk. rewrite decide_False; [done|lia].
  - rewrite list_lookup_alter_ne by done. rewrite decide_False; [done|tauto].
Qed.

Lemma released_task_done_guarded raises label t t' w :
  released t' (task_done_guarded raises label t w) = released t' (release t w).
Proof. unfold task_done_guarded. by destruct raises. Qed.



(** ** Cancelling an in-flight computation *)




(** ** The begin-request commands *)




(** ** Exactly-once release *)

Local Open Scope nat_scope.













(** What dispatching a message can touch: no task, no new future, no
    new registry entry; and the only coroutine it starts is at its
    [sleep]. *)
Lemma handle_frame m w :
  tasks (fst (handle m w)) = tasks w
  ∧ length (futures (fst (handle m w))) = length (futures w)
  ∧ (∀ u f, REQUESTS_IN_PROCESSING (fst (handle m w)) !! u = Some f →
            REQUESTS_IN_PROCESSING w !! u = Some f)
  ∧ (snd (handle m w) = None
     ∨ snd (handle m w) = Some (AtSleep (text_results_as_files m))).
Proof.
  unfold handle.
  destruct (dispatch (get_state (from_user m) w) m); cbn [fst snd];
    unfold send_welcome, cancel_handler, style_chosen_handler,
      save_images_as_mediagroup, image_sent_at_wrong_time_handler,
      bad_content_handler, any_other_message_handler, pop;
    repeat case_match; simplify_eq; cbn; rewrite ?length_alter;
    repeat split; auto.
  all: intros u f Hl; apply lookup_delete_Some in Hl; tauto.
Qed.





Lemma submit_frame_cases u raises as_files t w :
  fst (submit u raises as_files t w) = Finished
  ∨ ∃ f, fst (submit u raises as_files t w) = AtFuture as_files t f.
Proof.
  unfold submit, setdefault.
  destruct (REQUESTS_IN_PROCESSING _ !! u); case_bool_decide; cbn; eauto.
Qed.



Lemma reachable_deliver m s : reachable s → reachable (deliver m s).
Proof. intros H. eapply reachable_step; [exact H|apply step_deliver]. Qed.

Lemma reachable_resume i raises s : reachable s → reachable (resume i raises s).
Proof.
  intros H. unfold resume.
  destruct (running s !! i) as [[u fr]|] eqn:Hi; [|done].
  destruct (process_images_resume u raises fr (world s)) as [[fr' w']|] eqn:Hr;
    [|done].
  eapply reachable_step; [exact H|]. by eapply step_resume.
Qed.

Lemma reachable_complete future outcome s :
  reachable s → reachable (complete future outcome s).
Proof.
  intros H. unfold complete.
  destruct (futures (world s) !! future) as [[| | |]|] eqn:Hf; try done.
  destruct (is_outcome outcome) eqn:Ho; [|done].
  eapply reachable_step; [exact H|]. by apply step_complete.
Qed.

Lemma reachable_alice_downloading : reachable alice_downloading.
Proof.
  unfold alice_downloading, alice_waits_to_download.
  repeat first [apply reachable_resume | apply reachable_deliver].
  apply reachable_initial.
Qed.


(** ** Single flight *)

Lemma filter_key_absent {A} (u : nat) (l : list (nat * A)) :
  u ∉ l.*1 → filter (λ entry, entry.1 = u) l = [].
Proof.
  induction l as [|[k v] l IH]; intros Hin; [done|].
  rewrite fmap_cons in Hin. apply not_elem_of_cons in Hin as [Hne Hin].
  rewrite filter_cons. cbn [fst] in *. rewrite decide_False by done. by apply IH.
Qed.

Lemma filter_key_nodup {A} (u : nat) (l : list (nat * A)) :
  NoDup l.*1 → length (filter (λ entry, entry.1 = u) l) ≤ 1.
Proof.
  induction l as [|[k v] l IH]; intros Hnd; [cbn; lia|].
  rewrite fmap_cons in Hnd. apply NoDup_cons in Hnd as [Hk Hnd]. cbn [fst] in Hk.
  rewrite filter_cons. cbn [fst]. case_decide as Hku; [|by apply IH].
  subst k. by rewrite filter_key_absent.
Qed.

Lemma entries_of_le_1 u (registry : gmap nat nat) :
  length (entries_of u registry) ≤ 1.
Proof. apply filter_key_nodup, NoDup_fst_map_to_list. Qed.

(** What [submit] does, by what the registry holds for the user. *)
Lemma submit_spec u raises as_files task w :
  let future := length (futures w) in
  let w1 := with_futures (futures w ++ [Pending]) w in
  submit u raises as_files task w =
    match REQUESTS_IN_PROCESSING w !! u with
    | Some cur_req =>
        if decide (cur_req = future)
        then (AtFuture as_files task future, w1)
        else (Finished,
              task_done_guarded raises "case #2" task
                (log "The request superseded by other one." w1))
    | None =>
        (AtFuture as_files task future,
         with_registry (<[u:=future]> (REQUESTS_IN_PROCESSING w)) w1)
    end.
Proof.
  cbv zeta. unfold submit, setdefault. cbn [REQUESTS_IN_PROCESSING with_futures].
  destruct (REQUESTS_IN_PROCESSING w !! u) as [cur|] eqn:Hr.
  - by case_bool_decide; case_decide.
  - by rewrite bool_decide_false by (intros H; by apply H).
Qed.

Lemma submit_registry_valid u raises as_files task w :
  registry_valid w → registry_valid (snd (submit u raises as_files task w)).
Proof.
  intros Hv u' f. rewrite submit_spec. cbv zeta.
  destruct (REQUESTS_IN_PROCESSING w !! u) as [cur|] eqn:Hr.
  - case_decide; cbn [snd]; unfold task_done_guarded; destruct raises; cbn;
      rewrite length_app; intros Hl; apply Hv in Hl; lia.
  - cbn. rewrite length_app. intros Hl.
    apply lookup_insert_Some in Hl as [[_ <-]|[_ Hl]]; [cbn; lia|].
    apply Hv in Hl. lia.
Qed.

Lemma finally_registry u raises task future w :
  REQUESTS_IN_PROCESSING (finally u raises task future w)
  = if decide (REQUESTS_IN_PROCESSING w !! u = Some future)
    then delete u (REQUESTS_IN_PROCESSING w)
    else REQUESTS_IN_PROCESSING w.
Proof.
  unfold finally, task_done_guarded, pop.
  case_bool_decide; case_decide; try done; by destruct raises.
Qed.

Lemma finally_registry_valid u raises task future w :
  registry_valid w → registry_valid (finally u raises task future w).
Proof.
  intros Hv u' f. rewrite finally_registry.
  destruct (finally_frame u raises task future w) as (_ & _ & -> & _).
  case_decide; [|apply Hv].
  intros Hl. apply lookup_delete_Some in Hl as [_ Hl]. by apply Hv in Hl.
Qed.

Lemma resume_registry_valid u raises fr w fr' w' :
  process_images_resume u raises fr w = Some (fr', w') →
  registry_valid w → registry_valid w'.
Proof.
  intros Hres Hv.
  destruct fr as [as_files|as_files task_type images|as_files task images i
                  |as_files task future|task future|task future|];
    cbn [process_images_resume] in Hres.
  - destruct (fsm_data w !! u) as [[task_type images]|]; [|by simplify_eq].
    by destruct (check_images task_type images); simplify_eq.
  - destruct images; cbn [new_task] in Hres; simplify_eq; [|done].
    rewrite (surjective_pairing (submit _ _ _ _ _)) in Hres. simplify_eq.
    by apply submit_registry_valid.
  - assert (registry_valid (downloaded task i images w)) as Hv'.
    { intros u' f.
      destruct (downloaded_frame task i images w) as (_ & _ & -> & -> & _).
      apply Hv. }
    repeat case_bool_decide; simplify_eq.
    + unfold task_done_guarded. by destruct raises.
    + done.
    + rewrite (surjective_pairing (submit _ _ _ _ _)) in Hres. simplify_eq.
      by apply submit_registry_valid.
  - destruct (future_state future w) as [| |results|[]]; simplify_eq; try done.
    by apply finally_registry_valid.
  - by simplify_eq.
  - simplify_eq. by apply finally_registry_valid.
  - done.
Qed.

Lemma reachable_registry_valid s : reachable s → registry_valid (world s).
Proof.
  induction 1 as [|s l s' Hreach IH Hstep]; [done|].
  destruct Hstep as [s m|s i raises u fr fr' w' Hi Hres|s future outcome Hp Ho];
    cbn [world].
  - intros u f Hl. destruct (handle_frame m (world s)) as (_ & -> & Hsub & _).
    by apply (IH u), Hsub.
  - by eapply resume_registry_valid.
  - intros u f Hl. cbn. rewrite length_insert. by apply (IH u).
Qed.

(** C5.  Single flight.  In every state the bot can reach, the registry
    holds at most one entry for a user, and that entry is a future
    object of the world.  A coroutine that has downloaded its last image
    and finds an entry of its user in the registry does not replace it:
    the registry and the registered future stay as they are, the
    coroutine releases its task and returns without awaiting anything;
    if there is no entry it registers its new future.  At a terminal
    outcome (after the last reply, or on cancellation) the entry of the
    user is removed exactly if it is this coroutine's own future; any
    other entry stays. *)
Theorem single_flight :
  (∀ s, reachable s →
     ∀ u, length (entries_of u (REQUESTS_IN_PROCESSING (world s))) ≤ 1
          ∧ registry_valid (world s))
  ∧ (∀ u raises as_files task images i w,
       get_state u w = Some processing →
       length images ≤ S i →
       match REQUESTS_IN_PROCESSING w !! u with
       | Some cur_req =>
           cur_req < length (futures w) →
           ∃ w', process_images_resume u raises (AtDownload as_files task images i) w
                 = Some (Finished, w')
                 ∧ REQUESTS_IN_PROCESSING w' = REQUESTS_IN_PROCESSING w
                 ∧ futures w' !! cur_req = futures w !! cur_req
       | None =>
           ∃ w', process_images_resume u raises (AtDownload as_files task images i) w
                 = Some (AtFuture as_files task (length (futures w)), w')
                 ∧ REQUESTS_IN_PROCESSING w'
                   = <[u:=length (futures w)]> (REQUESTS_IN_PROCESSING w)
                 ∧ futures w' = futures w ++ [Pending]
       end)
  ∧ (∀ u raises as_files task future w,
       let removed :=
         if decide (REQUESTS_IN_PROCESSING w !! u = Some future)
         then delete u (REQUESTS_IN_PROCESSING w)
         else REQUESTS_IN_PROCESSING w in
       (∃ w', process_images_resume u raises (AtLastAnswer task future) w
              = Some (Finished, w')
              ∧ REQUESTS_IN_PROCESSING w' = removed)
       ∧ (future_state future w = Cancelled →
          ∃ w', process_images_resume u raises (AtFuture as_files task future) w
                = Some (Finished, w')
                ∧ REQUESTS_IN_PROCESSING w' = removed)).
Proof.
  split; [|split].
  - intros s Hreach u. split; [apply entries_of_le_1|].
    by apply reachable_registry_valid.
  - intros u raises as_files task images i w Hst Hlast.
    destruct (downloaded_frame task i images w) as (Hs & _ & Hr & Hf & _).
    assert (process_images_resume u raises (AtDownload as_files task images i) w
            = Some (submit u raises as_files task (downloaded task i images w)))
      as ->.
    { cbn [process_images_resume]. rewrite get_state_downloaded, Hst.
      rewrite bool_decide_false by (intros H; by apply H).
      by rewrite bool_decide_false by lia. }
    rewrite submit_spec. cbv zeta. rewrite Hr, Hf.
    destruct (REQUESTS_IN_PROCESSING w !! u) as [cur_req|].
    + intros Hlt. rewrite decide_False by lia. eexists. split; [done|].
      unfold task_done_guarded. destruct raises; cbn; rewrite Hr.
      all: split; [done|]; by apply lookup_app_l.
    + eexists. split; [done|]. by cbn.
  - intros u raises as_files task future w removed. split.
    + eexists. split; [done|]. apply finally_registry.
    + intros Hc. eexists. cbn [process_images_resume]. rewrite Hc.
      split; [done|]. apply finally_registry.
Qed.

Lemma single_flight_witness :
  (reachable alice_downloading
   ∧ length (entries_of alice (REQUESTS_IN_PROCESSING (world alice_downloading))) ≤ 1)
  ∧ (get_state alice (world_second_task Pending) = Some processing
     ∧ ∃ w', process_images_resume alice false
               (AtDownload false 1 [mkImage 0 ".jpg"] 0) (world_second_task Pending)
             = Some (Finished, w')
             ∧ REQUESTS_IN_PROCESSING w' = {[alice := 0]})
  ∧ (future_state 0 (world_processing Cancelled) = Cancelled
     ∧ ∃ w', process_images_resume alice false (AtFuture false 0 0)
               (world_processing Cancelled) = Some (Finished, w')
             ∧ REQUESTS_IN_PROCESSING w' = ∅).
Proof.
  destruct single_flight as (Hinv & Hsubmit & Hfinal).
  split; [|split].
  - split; [apply reachable_alice_downloading|].
    apply (Hinv alice_downloading reachable_alice_downloading alice).
  - split; [reflexivity|].
    pose proof (Hsubmit alice false false 1 [mkImage 0 ".jpg"] 0
                  (world_second_task Pending) eq_refl (le_n 1)) as H.
    change (REQUESTS_IN_PROCESSING (world_second_task Pending) !! alice)
      with (Some 0) in H.
    cbv beta iota in H.
    destruct H as (w' & Hres & Hreg & _); [vm_compute; lia|].
    exists w'. split; [exact Hres|exact Hreg].
  - split; [reflexivity|].
    destruct (Hfinal alice false false 0 0 (world_processing Cancelled))
      as [_ H].
    destruct (H eq_refl) as (w' & Hres & Hreg).
    exists w'. split; [exact Hres|]. rewrite Hreg. vm_compute. reflexivity.
Defined.

(** ** Entering and leaving [processing] *)

(** Project a field out of a world built by the update functions. *)
Ltac world_proj :=
  cbn [fsm_state fsm_data REQUESTS_IN_PROCESSING futures tasks outbox logs errors
       with_state finish with_data with_registry with_futures with_tasks
       reply log raise next].

Lemma get_state_with_state u u' s w :
  get_state u' (with_state u s w) = if decide (u = u') then s else get_state u' w.
Proof.
  unfold get_state, with_state. destruct s; cbn.
  - by rewrite lookup_insert.
  - by rewrite lookup_delete.
Qed.

Lemma get_state_finish_cases u u' w :
  get_state u' (finish u w) = if decide (u = u') then None else get_state u' w.
Proof. unfold get_state, finish. cbn. by rewrite lookup_delete. Qed.

Lemma get_state_next u u' w :
  get_state u' (next u w)
  = if decide (u = u') then StatesGroup_next (get_state u w) else get_state u' w.
Proof. unfold next. apply get_state_with_state. Qed.

(** The state of a user after a message of another user. *)
Lemma handle_state_other m w u :
  from_user m ≠ u → get_state u (fst (handle m w)) = get_state u w.
Proof.
  intros Hne. unfold handle.
  destruct (dispatch (get_state (from_user m) w) m); cbn [fst];
    unfold send_welcome, cancel_handler, style_chosen_handler,
      save_images_as_mediagroup, image_sent_at_wrong_time_handler,
      bad_content_handler, any_other_message_handler, pop, next;
    repeat case_match; simplify_eq;
    unfold get_state; world_proj;
    try match goal with
        | |- context [StatesGroup_next ?x] => destruct (StatesGroup_next x)
        end;
    cbv beta iota;
    repeat first [rewrite lookup_insert_ne by done | rewrite lookup_delete_ne by done];
    done.
Qed.

Lemma dispatch_send_welcome cur m :
  dispatch cur m = send_welcome_h → cur = None.
Proof.
  unfold dispatch. case_bool_decide; [done|].
  rewrite andb_false_r. repeat case_match; discriminate.
Qed.

Lemma dispatch_style_chosen cur m :
  dispatch cur m = style_chosen_handler_h →
  cur = None ∨ cur = Some waiting_for_style_chosen.
Proof.
  unfold dispatch.
  destruct (decide (cur = None)) as [->|Hn]; [by left|].
  destruct (decide (cur = Some waiting_for_style_chosen)) as [->|Hw]; [by right|].
  rewrite !(bool_decide_false (cur = _)) by done.
  repeat first [rewrite andb_false_r | progress cbn [orb andb]].
  repeat case_match; discriminate.
Qed.

(** The state of the sender after the handler chosen for the message. *)
Lemma handle_state_self m w :
  let u := from_user m in
  get_state u (fst (handle m w))
  = match dispatch (get_state u w) m with
    | send_welcome_h => Some waiting_for_style_chosen
    | cancel_handler_h => None
    | style_chosen_handler_h =>
        match command m with
        | Some shortcut =>
            match shortcuts_to_task_types shortcut with
            | Some _ => Some waiting_for_images
            | None => Some waiting_for_style_chosen
            end
        | None =>
            match text_button m with
            | Some _ => StatesGroup_next (get_state u w)
            | None => get_state u w
            end
        end
    | _ => get_state u w
    end.
Proof.
  cbv zeta. unfold handle.
  destruct (dispatch (get_state (from_user m) w) m) eqn:Hd; cbn [fst].
  - apply lookup_insert_eq.
  - unfold cancel_handler, pop.
    destruct (get_state (from_user m) w) eqn:Hs; [|done].
    repeat case_match; apply get_state_finish.
  - unfold style_chosen_handler.
    destruct (command m) as [shortcut|].
    + destruct (shortcuts_to_task_types shortcut).
      * change (get_state (from_user m) (reply ?a ?b ?c)) with (get_state (from_user m) c).
        rewrite get_state_next, decide_True by done.
        change (get_state (from_user m) (with_data ?a ?b ?c)) with (get_state (from_user m) c).
        by rewrite get_state_with_state, decide_True.
      * change (get_state (from_user m) (raise ?a ?b ?c)) with (get_state (from_user m) c).
        by rewrite get_state_with_state, decide_True.
    + destruct (text_button m); [|done].
      change (get_state (from_user m) (reply ?a ?b ?c)) with (get_state (from_user m) c).
      by rewrite get_state_next, decide_True.
  - unfold save_images_as_mediagroup. by repeat case_match.
  - done.
  - unfold image_sent_at_wrong_time_handler. by repeat case_match.
  - done.
  - unfold any_other_message_handler. by repeat case_match.
Qed.

Lemma fsm_state_submit u raises as_files t w :
  fsm_state (snd (submit u raises as_files t w)) = fsm_state w.
Proof.
  rewrite submit_spec. cbv zeta.
  destruct (REQUESTS_IN_PROCESSING w !! u); [case_decide|]; cbn [snd]; try done.
  unfold task_done_guarded. by destruct raises.
Qed.

(** The state of any user after a segment of a coroutine of user [u]:
    only [next()] after the "Please wait" reply and [state.finish()] on
    a returned or raised future touch it. *)
Lemma resume_state u raises fr w fr' w' u' :
  process_images_resume u raises fr w = Some (fr', w') →
  get_state u' w'
  = match fr with
    | AtPleaseWait _ _ _ => get_state u' (next u w)
    | AtFuture _ _ future =>
        if is_outcome (future_state future w) then get_state u' (finish u w)
        else get_state u' w
    | _ => get_state u' w
    end.
Proof.
  intros Hres.
  destruct fr as [as_files|as_files task_type images|as_files task images i
                  |as_files task future|task future|task future|];
    cbn [process_images_resume] in Hres.
  - destruct (fsm_data w !! u) as [[task_type images]|]; [|by simplify_eq].
    by destruct (check_images task_type images); simplify_eq.
  - destruct images; cbn [new_task] in Hres; simplify_eq; [|done].
    rewrite (surjective_pairing (submit _ _ _ _ _)) in Hres. simplify_eq.
    unfold get_state. by rewrite fsm_state_submit.
  - repeat case_bool_decide; simplify_eq.
    + unfold get_state.
      destruct (task_done_guarded_frame raises "case #1" task
                  (log "The request superseded by another one while downloading images."
                       (downloaded task i images w))) as (-> & _).
      apply get_state_downloaded.
    + apply get_state_downloaded.
    + rewrite (surjective_pairing (submit _ _ _ _ _)) in Hres. simplify_eq.
      unfold get_state. rewrite fsm_state_submit. apply get_state_downloaded.
  - destruct (future_state future w) as [| |results|[]]; simplify_eq; try done.
    by rewrite get_state_finally.
  - by simplify_eq.
  - simplify_eq. by rewrite get_state_finally.
  - done.
Qed.

(** [process_images] goes on after the capacity check only with a
    non-empty list of images. *)
Lemma check_images_proceed task_type images kept notice :
  check_images task_type images = Proceed kept notice → kept ≠ [].
Proof.
  intros Hc Hnil.
  assert (∀ k (l : list Image), (0 < k ≤ len l)%Z → take (Z.to_nat k) l ≠ []) as Htake.
  { intros k l Hk Ht. apply (f_equal length) in Ht.
    rewrite length_take in Ht. unfold len in Hk. cbn in Ht. lia. }
  pose proof (Nat2Z.is_nonneg (length images)) as Hlen. fold (len images) in Hlen.
  destruct (is_style_transfer task_type) eqn:Hp.
  - destruct task_type; try done.
    destruct (decide (2 ≤ len images)%Z) as [Hn|Hn].
    + rewrite check_images_style in Hc by done. cbv zeta in Hc.
      simplify_eq. eapply Htake; [|done]. lia.
    + destruct images as [|a [|b l]]; try done.
      unfold len in Hn. cbn in Hn. lia.
  - destruct (decide (1 ≤ len images)%Z) as [Hn|Hn].
    + rewrite check_images_preset in Hc by done. cbv zeta in Hc.
      simplify_eq. eapply Htake; [|done]. lia.
    + destruct images as [|a l]; [by destruct task_type|].
      unfold len in Hn. cbn in Hn. lia.
Qed.

Lemma resume_please_wait u raises fr w as_files task_type images w' :
  process_images_resume u raises fr w
    = Some (AtPleaseWait as_files task_type images, w') →
  images ≠ [].
Proof.
  intros Hres.
  destruct fr as [b|b tt imgs|b task imgs i|b task future|task future|task future|];
    cbn [process_images_resume] in Hres.
  - destruct (fsm_data w !! u) as [[tt imgs]|]; [|by simplify_eq].
    destruct (check_images tt imgs) eqn:Hc; simplify_eq.
    by eapply check_images_proceed.
  - destruct imgs; cbn [new_task] in Hres; simplify_eq.
    rewrite (surjective_pairing (submit _ _ _ _ _)) in Hres.
    destruct (submit_frame_cases u raises b (length (tasks (next u w)))
                (with_tasks (tasks (next u w) ++ [mkTask tt [] 0]) (next u w)))
      as [Hf|[f Hf]]; simplify_eq; congruence.
  - repeat case_bool_decide; simplify_eq.
    rewrite (surjective_pairing (submit _ _ _ _ _)) in Hres.
    destruct (submit_frame_cases u raises b task (downloaded task i imgs w))
      as [Hf|[f Hf]]; simplify_eq; congruence.
  - destruct (future_state future w) as [| |results|[]]; simplify_eq.
  - simplify_eq.
  - simplify_eq.
  - done.
Qed.

Lemma reachable_please_wait s :
  reachable s →
  ∀ i u as_files task_type images,
    running s !! i = Some (u, AtPleaseWait as_files task_type images) →
    images ≠ [].
Proof.
  induction 1 as [|s l s' Hreach IH Hstep]; intros j v b tt imgs Hj.
  - by destruct j.
  - destruct Hstep as [s m|s i raises u fr fr' w' Hi Hres|s future outcome Hp Ho];
      cbn [running] in Hj.
    + apply lookup_app_Some in Hj as [Hj|[_ Hj]]; [by eapply IH|].
      destruct (handle_frame m (world s)) as (_ & _ & _ & [Hn|Hn]);
        rewrite Hn in Hj.
      * by rewrite lookup_nil in Hj.
      * apply list_lookup_singleton_Some in Hj as [_ Hj]. by simplify_eq.
    + destruct (decide (i = j)) as [->|Hne].
      * rewrite list_lookup_insert_eq in Hj by (by eapply lookup_lt_Some).
        simplify_eq. by eapply resume_please_wait.
      * rewrite list_lookup_insert_ne in Hj by done. by eapply IH.
    + by eapply IH.
Qed.

(** C3, as stated, fails.  [alice] has chosen a preset, sent one photo
    and pressed OK.  Once her coroutine has sent "Please wait", its next
    segment sets her state to [processing] and creates the task; at that
    point the image is still to be downloaded, no future exists (nothing
    was handed to the pool) and the registry is empty. *)
Lemma processing_before_submission_counterexample :
  reachable alice_downloading
  ∧ running alice_waits_to_download
    = [(alice, AtPleaseWait false photo2monet [mkImage 5 ".jpg"])]
  ∧ get_state alice (world alice_waits_to_download) = Some waiting_for_images
  ∧ running alice_downloading
    = [(alice, AtDownload false 0 [mkImage 5 ".jpg"] 0)]
  ∧ get_state alice (world alice_downloading) = Some processing
  ∧ tasks (world alice_downloading) = [mkTask photo2monet [] 0]
  ∧ futures (world alice_downloading) = []
  ∧ REQUESTS_IN_PROCESSING (world alice_downloading) = ∅.
Proof. split; [apply reachable_alice_downloading|]. repeat split. Qed.

(** C3, amended.  A user's state becomes [processing] in one place
    only: the segment of his own [process_images] coroutine that follows
    the "Please wait" reply, when the state is still
    [waiting_for_images].  That segment creates the task and starts the
    first download; the future is created and registered later, so
    futures and registry are unchanged by it.  A user's state leaves
    [processing] only to no state, and only by one of: his message that
    is dispatched to the cancel handler; a coroutine of his that wakes
    up with a returned or raised future; a coroutine of his that passes
    its own [next()] after "Please wait" (a second OK that was accepted
    while he was still in [waiting_for_images]). *)
Theorem processing_entry_and_exit (s : System) (l : Label) (s' : System) (u : UserId) :
  step s l s' →
  (reachable s →
   get_state u (world s) ≠ Some processing →
   get_state u (world s') = Some processing →
   ∃ i raises as_files task_type images,
     l = Resume i raises
     ∧ running s !! i = Some (u, AtPleaseWait as_files task_type images)
     ∧ get_state u (world s) = Some waiting_for_images
     ∧ running s' !! i
       = Some (u, AtDownload as_files (length (tasks (world s))) images 0)
     ∧ tasks (world s') = tasks (world s) ++ [mkTask task_type [] 0]
     ∧ futures (world s') = futures (world s)
     ∧ REQUESTS_IN_PROCESSING (world s') = REQUESTS_IN_PROCESSING (world s))
  ∧ (get_state u (world s) = Some processing →
     get_state u (world s') ≠ Some processing →
     get_state u (world s') = None
     ∧ ((∃ m, l = Deliver m ∧ from_user m = u
              ∧ dispatch (Some processing) m = cancel_handler_h)
        ∨ (∃ i raises as_files task future,
             l = Resume i raises
             ∧ running s !! i = Some (u, AtFuture as_files task future)
             ∧ is_outcome (future_state future (world s)) = true)
        ∨ (∃ i raises as_files task_type images,
             l = Resume i raises
             ∧ running s !! i = Some (u, AtPleaseWait as_files task_type images)))).
Proof.
  intros Hstep.
  destruct Hstep as [s m|s i raises u0 fr fr' w' Hi Hres|s future outcome Hp Ho];
    cbn [world running].
  - (* a message *)
    destruct (decide (from_user m = u)) as [<-|Hne].
    + pose proof (handle_state_self m (world s)) as Hself. cbv zeta in Hself.
      destruct (dispatch (get_state (from_user m) (world s)) m) eqn:Hd.
      all: split; [intros _ Hb Ha|intros Hb Ha]; rewrite Hself in Ha; try done.
      * apply dispatch_send_welcome in Hd. congruence.
      * split; [by rewrite Hself|]. left. exists m. rewrite <- Hb. by repeat split.
      * apply dispatch_style_chosen in Hd.
        destruct (command m) as [c|]; [by destruct (shortcuts_to_task_types c)|].
        destruct (text_button m); [|done].
        by destruct Hd as [Hd|Hd]; rewrite Hd in Ha.
      * apply dispatch_style_chosen in Hd. destruct Hd; congruence.
    + rewrite (handle_state_other m (world s) u Hne). by split.
  - (* a coroutine *)
    pose proof (resume_state u0 raises fr (world s) fr' w' u Hres) as Hst.
    destruct fr as [b|b tt imgs|b task imgs j|b task future|task future|task future|];
      try (rewrite Hst; by split).
    + rewrite get_state_next in Hst. case_decide as Hu; [subst u0|rewrite Hst; by split].
      split.
      * intros Hreach Hb Ha. rewrite Hst in Ha.
        assert (get_state u (world s) = Some waiting_for_images) as Hwfi.
        { by destruct (get_state u (world s)) as [[]|]. }
        pose proof (reachable_please_wait s Hreach i u b tt imgs Hi) as Hne.
        destruct imgs as [|image imgs]; [done|].
        cbn [process_images_resume new_task] in Hres. simplify_eq.
        exists i, raises, b, tt, (image :: imgs). split; [done|].
        split; [done|]. split; [done|].
        split; [apply list_lookup_insert_eq; by eapply lookup_lt_Some|].
        by repeat split.
      * intros Hb Ha. rewrite Hst, Hb in *. split; [done|].
        right; right. by exists i, raises, b, tt, imgs.
    + destruct (is_outcome (future_state future (world s))) eqn:Hout;
        [|rewrite Hst; by split].
      rewrite get_state_finish_cases in Hst.
      case_decide as Hu; [subst u0|rewrite Hst; by split].
      split; [intros _ _ Ha; congruence|].
      intros Hb Ha. split; [done|].
      right; left. by exists i, raises, b, task, future.
  - (* a worker completion *)
    by split.
Qed.

Lemma step_resume_run i raises s u fr fr' w' :
  running s !! i = Some (u, fr) →
  process_images_resume u raises fr (world s) = Some (fr', w') →
  step s (Resume i raises) (resume i raises s).
Proof.
  intros Hi Hres. unfold resume. rewrite Hi, Hres. by eapply step_resume.
Qed.

Lemma reachable_alice_waits_to_download : reachable alice_waits_to_download.
Proof.
  unfold alice_waits_to_download.
  repeat first [apply reachable_resume | apply reachable_deliver].
  apply reachable_initial.
Qed.

Lemma processing_entry_and_exit_witness :
  (step alice_waits_to_download (Resume 0 false) alice_downloading
   ∧ get_state alice (world alice_waits_to_download) ≠ Some processing
   ∧ get_state alice (world alice_downloading) = Some processing
   ∧ ∃ i raises as_files task_type images,
       Resume 0 false = Resume i raises
       ∧ running alice_waits_to_download !! i
         = Some (alice, AtPleaseWait as_files task_type images)
       ∧ futures (world alice_downloading) = futures (world alice_waits_to_download))
  ∧ (step alice_in_flight (Deliver cancel_message)
          (deliver cancel_message alice_in_flight)
     ∧ get_state alice (world alice_in_flight) = Some processing
     ∧ get_state alice (world (deliver cancel_message alice_in_flight)) = None).
Proof.
  assert (step alice_waits_to_download (Resume 0 false) alice_downloading) as Hstep1.
  { unfold alice_downloading. by eapply step_resume_run. }
  assert (get_state alice (world alice_waits_to_download) ≠ Some processing) as Hb
    by discriminate.
  assert (step alice_in_flight (Deliver cancel_message)
               (deliver cancel_message alice_in_flight)) as Hstep2
    by apply step_deliver.
  assert (get_state alice (world (deliver cancel_message alice_in_flight))
          ≠ Some processing) as Ha by discriminate.
  split.
  - split; [exact Hstep1|]. split; [exact Hb|]. split; [reflexivity|].
    destruct (processing_entry_and_exit _ _ _ alice Hstep1) as [Henter _].
    destruct (Henter reachable_alice_waits_to_download Hb eq_refl)
      as (i & raises & b & tt & imgs & Hl & Hi & _ & _ & _ & Hf & _).
    exists i, raises, b, tt, imgs. split; [exact Hl|]. split; [exact Hi|exact Hf].
  - split; [exact Hstep2|]. split; [reflexivity|].
    destruct (processing_entry_and_exit _ _ _ alice Hstep2) as [_ Hexit].
    destruct (Hexit eq_refl Ha) as [Hnone _]. exact Hnone.
Defined.

(** ** The model at work *)

(** The capacity table of the specification: kept counts for style
    transfer with 0, 1, 2, 3, 11, 12 images and for a preset with
    0, 5, 10, 11 images. *)
Example capacity_table :
  let images n := map (fun i => mkImage i ".jpg") (seq 0 n) in
  let kept task_type n :=
    match check_images task_type (images n) with
    | Proceed kept _ => Some (length kept)
    | _ => None
    end in
  map (kept style_transfer) [0; 1; 2; 3; 11; 12]
    = [None; None; Some 2; Some 2; Some 10; Some 10]
  ∧ map (kept photo2cezanne) [0; 5; 10; 11]
    = [None; Some 5; Some 10; Some 10].
Proof. split; reflexivity. Qed.

(** A request served from the first message to the last: [alice] ends
    without a state, with an empty registry, her task released once and
    the replies in order. *)
Example end_to_end_success :
  running alice_served = [(alice, Finished)]
  ∧ get_state alice (world alice_served) = None
  ∧ REQUESTS_IN_PROCESSING (world alice_served) = ∅
  ∧ futures (world alice_served) = [Returned ["0.png"]]
  ∧ released 0 (world alice_served) = 1
  ∧ outbox (world alice_served)
    = [(alice, StyleAccepted photo2monet true 10);
       (alice, PleaseWait NoNotice);
       (alice, ResultMedia false ["0.png"]);
       (alice, HereIsTheResult)].
Proof. repeat split. Qed.

(** * Further properties *)

(** ** Choosing a job type *)

(** X1.  Keyboard labels round-trip: the text of each button selects
    its own job type in [style_chosen_handler], although the labels are
    searched by substring and in dict order. *)
Theorem button_round_trip (task_type : TaskType) :
  button_in_text (task_types_to_buttons task_type) = Some task_type.
Proof. by destruct task_type; vm_compute. Qed.



(** ** Cancelling *)

(** X3.  Cancelling is idempotent: whatever the first cancel did, a
    second cancel right after it finds no state, answers "Nothing to
    cancel" and changes nothing else. *)
Theorem cancel_twice (m : Message) (w : World) :
  cancel_handler m (cancel_handler m w)
  = reply (from_user m) NothingToCancel (cancel_handler m w).
Proof.
  assert (get_state (from_user m) (cancel_handler m w) = None) as Hs.
  { unfold cancel_handler at 1, pop.
    destruct (get_state (from_user m) w) eqn:Hw; [|done].
    repeat case_match; apply get_state_finish. }
  unfold cancel_handler at 1. by rewrite Hs.
Qed.

(** X4.  A cancel by a user who has a state but no registered future
    (choosing, collecting, or still materializing) finishes the state,
    drops the buffer, answers "Current scheduled request is cancelled",
    and touches neither the registry nor any future or task. *)
Theorem cancel_scheduled (m : Message) (w : World) :
  is_Some (get_state (from_user m) w) →
  REQUESTS_IN_PROCESSING w !! from_user m = None →
  let u := from_user m in
  let w' := cancel_handler m w in
  get_state u w' = None
  ∧ fsm_data w' = delete u (fsm_data w)
  ∧ REQUESTS_IN_PROCESSING w' = REQUESTS_IN_PROCESSING w
  ∧ futures w' = futures w
  ∧ tasks w' = tasks w
  ∧ outbox w' = outbox w ++ [(u, ScheduledCancelled)]
  ∧ errors w' = errors w.
Proof.
  intros [s Hs] Hr. cbv zeta. unfold cancel_handler, pop. rewrite Hs.
  cbn [REQUESTS_IN_PROCESSING finish log]. rewrite Hr.
  split; [apply get_state_finish|]. repeat split; try done.
  cbn. by apply delete_id.
Qed.

Lemma cancel_scheduled_witness :
  is_Some (get_state alice (world_downloading (Some processing)))
  ∧ REQUESTS_IN_PROCESSING (world_downloading (Some processing)) !! alice = None
  ∧ get_state alice (cancel_handler cancel_message (world_downloading (Some processing)))
    = None
  ∧ outbox (cancel_handler cancel_message (world_downloading (Some processing)))
    = [(alice, PleaseWait NoNotice); (alice, ScheduledCancelled)].
Proof.
  assert (is_Some (get_state alice (world_downloading (Some processing)))) as Hs
    by (exists processing; reflexivity).
  split; [exact Hs|]. split; [reflexivity|].
  pose proof (cancel_scheduled cancel_message (world_downloading (Some processing))
                Hs eq_refl) as H.
  cbv zeta in H. destruct H as (Hst & _ & _ & _ & _ & Ho & _).
  split; [exact Hst|exact Ho].
Defined.



(** ** Messages that do not fit the state *)

Lemma dispatch_wrong_time cur m :
  dispatch cur m = image_sent_at_wrong_time_handler_h →
  cur ≠ Some waiting_for_images.
Proof.
  intros Hd ->. unfold dispatch in Hd.
  rewrite !(bool_decide_true (Some waiting_for_images = Some waiting_for_images)) in Hd
    by done.
  rewrite !(bool_decide_false (Some waiting_for_images = _)) in Hd by done.
  destruct (content_type m); cbn [is_text is_image andb orb] in Hd;
    repeat case_match; discriminate.
Qed.

(** X6.  The three guidance handlers only reply.  Whenever a message is
    dispatched to [image_sent_at_wrong_time_handler],
    [bad_content_handler] or [any_other_message_handler], the world
    changes by exactly one reply to the sender and no coroutine starts.
    In particular the "unknown state" [RuntimeError] of the first is
    never raised: an image in [waiting_for_images] is taken by the
    upload handler, which is registered before it. *)
Theorem guidance_only_replies (m : Message) (w : World) :
  let u := from_user m in
  let h := dispatch (get_state u w) m in
  h = image_sent_at_wrong_time_handler_h ∨ h = bad_content_handler_h
  ∨ h = any_other_message_handler_h →
  handle m w
  = (reply u
       match h with
       | image_sent_at_wrong_time_handler_h => NothingToDo (get_state u w)
       | bad_content_handler_h => BadContent
       | _ => match get_state u w with
              | Some _ => IncorrectMessage
              | None => NotRecognized
              end
       end w, None).
Proof.
  cbv zeta. intros Hh. unfold handle.
  destruct (dispatch (get_state (from_user m) w) m) eqn:Hd;
    try (destruct Hh as [Hh|[Hh|Hh]]; discriminate Hh).
  - apply dispatch_wrong_time in Hd. unfold image_sent_at_wrong_time_handler.
    by destruct (get_state (from_user m) w) as [[]|].
  - done.
  - unfold any_other_message_handler.
    by destruct (get_state (from_user m) w).
Qed.

Lemma guidance_only_replies_witness :
  dispatch (get_state alice (world_processing Pending)) one_photo
    = image_sent_at_wrong_time_handler_h
  ∧ handle one_photo (world_processing Pending)
    = (reply alice (NothingToDo (Some processing)) (world_processing Pending), None).
Proof.
  split; [reflexivity|].
  exact (guidance_only_replies one_photo (world_processing Pending)
           (or_introl eq_refl)).
Defined.

(** X7.  A [process_images] coroutine starts only for a text message
    that contains "OK", does not ask to cancel, and comes from a user in
    [waiting_for_images]; starting it changes nothing in the world, and
    the coroutine is at its [sleep], having noted whether the results
    are wanted as files. *)
Theorem coroutine_start_guard (m : Message) (w : World) (fr : Frame) :
  snd (handle m w) = Some fr →
  fr = AtSleep (text_results_as_files m)
  ∧ fst (handle m w) = w
  ∧ get_state (from_user m) w = Some waiting_for_images
  ∧ content_type m = TEXT
  ∧ text_contains_OK m = true
  ∧ text_contains_cancel m = false
  ∧ is_cancel_command (command m) = false.
Proof.
  unfold handle.
  destruct (dispatch (get_state (from_user m) w) m) eqn:Hd; try discriminate.
  cbn [fst snd]. intros [= <-]. split; [done|]. split; [done|].
  unfold dispatch in Hd.
  destruct (content_type m), (text_contains_OK m), (text_contains_cancel m),
    (is_cancel_command (command m)); cbn [is_text is_image andb orb] in Hd;
    repeat case_match; try discriminate;
    repeat match goal with
           | H : bool_decide _ = true |- _ => apply bool_decide_eq_true in H
           | H : _ && _ = true |- _ => apply andb_prop in H as [? ?]
           end; try done.
Qed.

Lemma coroutine_start_guard_witness :
  snd (handle ok_message (world_with_images alice photo2monet []))
    = Some (AtSleep false)
  ∧ get_state alice (world_with_images alice photo2monet [])
    = Some waiting_for_images.
Proof.
  split; [reflexivity|].
  destruct (coroutine_start_guard ok_message
              (world_with_images alice photo2monet []) (AtSleep false) eq_refl)
    as (_ & _ & Hs & _).
  exact Hs.
Defined.



(** ** The image buffer *)

Lemma save_images_accepted m w ext :
  accepted_ext m = Some ext →
  save_images_as_mediagroup m w
  = match fsm_data w !! from_user m with
    | Some (task_type, images) =>
        with_data (from_user m) (task_type, images ++ [mkImage (file m) ext]) w
    | None => raise (from_user m) KeyError w
    end.
Proof.
  unfold accepted_ext, save_images_as_mediagroup.
  destruct (content_type m); try done.
  - by intros [= <-].
  - repeat case_match; try done; by intros [= <-].
Qed.

(** X9.  Uploads are buffered in arrival order.  After any sequence of
    accepted uploads of one user (photos, jpeg or png documents), handled
    one after the other, the user's buffer is the old buffer followed by
    the uploads in the order they came, under the same job type; state,
    registry, replies and errors are as before. *)
Theorem uploads_in_order (u : UserId) (ms : list Message) (w : World)
    (task_type : TaskType) (images : list Image) :
  Forall (accepted_from u) ms →
  fsm_data w !! u = Some (task_type, images) →
  let w' := foldl (fun w m => save_images_as_mediagroup m w) w ms in
  fsm_data w' = <[u:=(task_type, images ++ omap buffered ms)]> (fsm_data w)
  ∧ fsm_state w' = fsm_state w
  ∧ REQUESTS_IN_PROCESSING w' = REQUESTS_IN_PROCESSING w
  ∧ outbox w' = outbox w
  ∧ errors w' = errors w.
Proof.
  intros Hms. revert w images.
  induction Hms as [|m ms [Hu [ext Hext]] Hms IH]; intros w images Hd; cbv zeta.
  - cbn. rewrite app_nil_r. by rewrite insert_id.
  - cbn [foldl]. rewrite (save_images_accepted m w ext Hext), Hu, Hd.
    specialize (IH (with_data u (task_type, images ++ [mkImage (file m) ext]) w)
                  (images ++ [mkImage (file m) ext])).
    cbv zeta in IH. destruct IH as (Hdata & Hrest); [apply lookup_insert_eq|].
    split; [|exact Hrest].
    rewrite Hdata. cbn [fsm_data with_data]. rewrite insert_insert_eq.
    assert (buffered m = Some (mkImage (file m) ext)) as Hb
      by (unfold buffered; by rewrite Hext).
    cbn [omap list_omap]. rewrite Hb. by rewrite <- app_assoc.
Qed.

Lemma uploads_in_order_witness :
  Forall (accepted_from alice) [one_photo; one_photo]
  ∧ fsm_data (foldl (fun w m => save_images_as_mediagroup m w)
                (world_with_images alice photo2monet []) [one_photo; one_photo])
    = <[alice:=(photo2monet, [mkImage 5 ".jpg"; mkImage 5 ".jpg"])]>
        (fsm_data (world_with_images alice photo2monet [])).
Proof.
  assert (accepted_from alice one_photo) as Ha
    by (split; [reflexivity|exists ".jpg"; reflexivity]).
  assert (Forall (accepted_from alice) [one_photo; one_photo]) as Hall
    by (apply Forall_cons; split; [exact Ha|apply Forall_cons; split; [exact Ha|apply Forall_nil_2]]).
  split; [exact Hall|].
  pose proof (uploads_in_order alice [one_photo; one_photo]
                (world_with_images alice photo2monet []) photo2monet []
                Hall eq_refl) as H.
  cbv zeta in H. destruct H as [H _]. exact H.
Defined.

(** X10.  An accepted upload for a user whose data dict has no buffer
    (the state says [waiting_for_images] but the data was finished
    meanwhile) dies with a [KeyError] on [proxy['images']] and changes
    nothing else: no reply, no state change. *)
Theorem upload_without_buffer (m : Message) (w : World) :
  is_Some (accepted_ext m) →
  fsm_data w !! from_user m = None →
  save_images_as_mediagroup m w = raise (from_user m) KeyError w.
Proof. intros [ext Hext] Hd. by rewrite (save_images_accepted m w ext Hext), Hd. Qed.

Lemma upload_without_buffer_witness :
  is_Some (accepted_ext one_photo)
  ∧ errors (save_images_as_mediagroup one_photo (world initial))
    = [(alice, KeyError)].
Proof.
  assert (is_Some (accepted_ext one_photo)) as Ha by (exists ".jpg"; reflexivity).
  split; [exact Ha|].
  by rewrite (upload_without_buffer one_photo (world initial) Ha eq_refl).
Defined.

(** X11.  The capacity check reaches a fixed point: the list it keeps
    passes the check of the same job type unchanged and without a
    notice. *)
Theorem check_images_idempotent (task_type : TaskType) (images kept : list Image)
    (notice : Notice) :
  check_images task_type images = Proceed kept notice →
  check_images task_type kept = Proceed kept NoNotice.
Proof.
  intros Hc.
  pose proof (Nat2Z.is_nonneg (length images)) as Hlen. fold (len images) in Hlen.
  assert (∀ k, (0 ≤ k ≤ len images)%Z → len (take (Z.to_nat k) images) = k) as Hk.
  { intros k Hk. unfold len in *. rewrite length_take. lia. }
  destruct (is_style_transfer task_type) eqn:Hp.
  - destruct task_type; try done.
    destruct (decide (2 ≤ len images)%Z) as [Hn|Hn].
    + rewrite check_images_style in Hc by done. cbv zeta in Hc.
      injection Hc as <- _.
      set (k := (2 * (len images `min` 10 / 2))%Z) in *.
      assert (len (take (Z.to_nat k) images) = k) as Hlk by (apply Hk; lia).
      rewrite check_images_style by lia. cbv zeta. rewrite Hlk.
      assert ((2 * (k `min` 10 / 2))%Z = k) as -> by lia.
      rewrite Z.eqb_refl. f_equal. rewrite <- Hlk at 1. apply take_len.
    + destruct images as [|a [|b l]]; try done.
      unfold len in Hn. cbn in Hn. lia.
  - destruct (decide (1 ≤ len images)%Z) as [Hn|Hn].
    + rewrite check_images_preset in Hc by done. cbv zeta in Hc.
      injection Hc as <- _.
      set (k := (len images `min` 10)%Z) in *.
      assert (len (take (Z.to_nat k) images) = k) as Hlk by (apply Hk; lia).
      rewrite check_images_preset by (done || lia). cbv zeta. rewrite Hlk.
      assert ((k `min` 10)%Z = k) as -> by lia.
      rewrite Z.eqb_refl. f_equal. rewrite <- Hlk at 1. apply take_len.
    + destruct images as [|a l]; [by destruct task_type|].
      unfold len in Hn. cbn in Hn. lia.
Qed.

Lemma check_images_idempotent_witness :
  check_images style_transfer eleven_images
    = Proceed (take 10 eleven_images) (PairNotice true true 10 1)
  ∧ check_images style_transfer (take 10 eleven_images)
    = Proceed (take 10 eleven_images) NoNotice.
Proof.
  split; [reflexivity|].
  exact (check_images_idempotent style_transfer eleven_images
           (take 10 eleven_images) (PairNotice true true 10 1) eq_refl).
Defined.

(** ** Materialization, undisturbed *)

Lemma files_from_cons i images image :
  images !! i = Some image →
  files_from i images = (i, image_ext image) :: files_from (S i) images.
Proof.
  intros Hi. unfold files_from. pose proof (lookup_lt_Some _ _ _ Hi) as Hlt.
  rewrite (drop_S images image i Hi).
  replace (length images - i) with (S (length images - S i)) by lia.
  done.
Qed.

Lemma files_from_end i images : length images ≤ i → files_from i images = [].
Proof.
  intros Hge. unfold files_from.
  by replace (length images - i) with 0 by lia.
Qed.

(** X12.  If nothing disturbs the user's state, the download loop
    writes one file per image, named by position and extension, in
    order, and only then submits.  From the download of image [i], with
    the state at [processing], resuming the coroutine once per remaining
    image ends in the submission, and the task's directory holds what it
    held before followed by [str(j) + ext] for [j = i, ..., n-1]. *)
Theorem materialization_files (u : UserId) (raises as_files : bool) (task : TaskId)
    (images : list Image) (i : nat) (w : World) :
  i < length images →
  get_state u w = Some processing →
  resume_coroutine (length images - i) u raises (AtDownload as_files task images i) w
  = submit u raises as_files task
      (with_tasks
         (alter (fun k => mkTask (task_type_of k)
                                 (dataroot k ++ files_from i images)
                                 (done_calls k)) task (tasks w)) w).
Proof.
  remember (length images - i) as d eqn:Hd.
  revert i w Hd. induction d as [|d IH]; intros i w Hd Hlt Hst; [lia|].
  destruct (lookup_lt_is_Some_2 images i Hlt) as [image Hi].
  cbn [resume_coroutine process_images_resume].
  rewrite get_state_downloaded, Hst.
  rewrite bool_decide_false by (intros H; by apply H).
  unfold downloaded. rewrite Hi. rewrite (files_from_cons i images image Hi).
  case_bool_decide as Hnext.
  - rewrite (IH (S i)) by (done || lia).
    f_equal. unfold with_tasks at 1. cbn [fsm_state fsm_data REQUESTS_IN_PROCESSING
      futures tasks outbox logs errors with_tasks].
    unfold with_tasks. f_equal. rewrite list_alter_alter_eq.
    apply list_alter_ext; [|done]. intros k _. cbn. by rewrite <- app_assoc.
  - assert (d = 0) as -> by lia. cbn [resume_coroutine].
    rewrite (files_from_end (S i)) by lia.
    by destruct (submit _ _ _ _ _).
Qed.

Lemma materialization_files_witness :
  0 < length [mkImage 0 ".jpg"; mkImage 1 ".png"]
  ∧ get_state alice (world_downloading (Some processing)) = Some processing
  ∧ (fst (resume_coroutine 2 alice false
            (AtDownload false 0 [mkImage 0 ".jpg"; mkImage 1 ".png"] 0)
            (world_downloading (Some processing))) = AtFuture false 0 0
     ∧ tasks (snd (resume_coroutine 2 alice false
                     (AtDownload false 0 [mkImage 0 ".jpg"; mkImage 1 ".png"] 0)
                     (world_downloading (Some processing))))
       = [mkTask photo2monet [(0, ".jpg"); (1, ".png")] 0]).
Proof.
  assert (0 < length [mkImage 0 ".jpg"; mkImage 1 ".png"]) as Hlt by (cbn; lia).
  split; [exact Hlt|]. split; [reflexivity|].
  pose proof (materialization_files alice false false 0
                [mkImage 0 ".jpg"; mkImage 1 ".png"] 0
                (world_downloading (Some processing)) Hlt eq_refl) as H.
  change (length [mkImage 0 ".jpg"; mkImage 1 ".png"] - 0) with 2 in H.
  rewrite H. split; reflexivity.
Defined.

(** ** OK pressed twice *)





(** ** Futures and the registry across steps *)

Lemma sum_list_with_insert {A} (g : A → nat) (l : list A) i x y :
  l !! i = Some x →
  sum_list_with g (<[i:=y]> l) + g x = sum_list_with g l + g y.
Proof.
  revert i. induction l as [|c l IH]; intros [|i] Hi; try done.
  - injection Hi as ->. cbn [insert list_insert sum_list_with]. lia.
  - change (<[S i:=y]> (c :: l)) with (c :: <[i:=y]> l).
    cbn [sum_list_with]. specialize (IH i Hi). lia.
Qed.

Lemma sum_list_with_lookup_le {A} (g : A → nat) (l : list A) i x :
  l !! i = Some x → g x ≤ sum_list_with g l.
Proof.
  revert i. induction l as [|c l IH]; intros [|i] Hi; try done.
  - injection Hi as ->. cbn [sum_list_with]. lia.
  - cbn [sum_list_with]. specialize (IH i Hi). lia.
Qed.

(** What one segment of a coroutine of user [u] does to the futures, to
    the future it holds, and to the registry. *)
Lemma resume_cases u raises fr w fr' w' :
  process_images_resume u raises fr w = Some (fr', w') →
  registry_valid w →
  (futures w' = futures w ∨ futures w' = futures w ++ [Pending])
  ∧ (REQUESTS_IN_PROCESSING w' = REQUESTS_IN_PROCESSING w
     ∧ (frame_future fr' = frame_future fr
        ∨ fr' = Finished
          ∧ ∀ f, frame_future fr = Some f → REQUESTS_IN_PROCESSING w !! u ≠ Some f)
     ∨ REQUESTS_IN_PROCESSING w' = <[u:=length (futures w)]> (REQUESTS_IN_PROCESSING w)
       ∧ frame_future fr = None
       ∧ frame_future fr' = Some (length (futures w))
       ∧ futures w' = futures w ++ [Pending]
     ∨ REQUESTS_IN_PROCESSING w' = delete u (REQUESTS_IN_PROCESSING w)
       ∧ fr' = Finished).
Proof.
  intros Hres Hv.
  assert (∀ b t w0 fr0 w0',
            futures w0 = futures w →
            REQUESTS_IN_PROCESSING w0 = REQUESTS_IN_PROCESSING w →
            submit u raises b t w0 = (fr0, w0') →
            (futures w0' = futures w ∨ futures w0' = futures w ++ [Pending])
            ∧ (REQUESTS_IN_PROCESSING w0' = REQUESTS_IN_PROCESSING w
               ∧ (frame_future fr0 = None
                  ∨ fr0 = Finished
                    ∧ ∀ f, (None : option nat) = Some f → REQUESTS_IN_PROCESSING w !! u ≠ Some f)
               ∨ REQUESTS_IN_PROCESSING w0' = <[u:=length (futures w)]> (REQUESTS_IN_PROCESSING w)
                 ∧ (None : option nat) = None
                 ∧ frame_future fr0 = Some (length (futures w))
                 ∧ futures w0' = futures w ++ [Pending]
               ∨ REQUESTS_IN_PROCESSING w0' = delete u (REQUESTS_IN_PROCESSING w)
                 ∧ fr0 = Finished)) as Hsubmit.
  { intros b t w0 fr0 w0' Hf Hr. rewrite submit_spec. cbv zeta. rewrite Hf, Hr.
    destruct (REQUESTS_IN_PROCESSING w !! u) as [cur|] eqn:Hcur.
    - pose proof (Hv u cur Hcur). rewrite decide_False by lia.
      intros [= <- <-]. unfold task_done_guarded. destruct raises; cbn; rewrite Hr;
        (split; [by right|]); left; (split; [done|]); by left.
    - intros [= <- <-]. cbn. split; [by right|]. right; left. by repeat split. }
  assert (∀ t f w0,
            futures w0 = futures w →
            REQUESTS_IN_PROCESSING w0 = REQUESTS_IN_PROCESSING w →
            (futures (finally u raises t f w0) = futures w
             ∨ futures (finally u raises t f w0) = futures w ++ [Pending])
            ∧ (REQUESTS_IN_PROCESSING (finally u raises t f w0) = REQUESTS_IN_PROCESSING w
               ∧ ((None : option nat) = Some f
                  ∨ Finished = Finished
                    ∧ ∀ f0, Some f = Some f0 → REQUESTS_IN_PROCESSING w !! u ≠ Some f0)
               ∨ REQUESTS_IN_PROCESSING (finally u raises t f w0)
                 = <[u:=length (futures w)]> (REQUESTS_IN_PROCESSING w)
                 ∧ Some f = None
                 ∧ (None : option nat) = Some (length (futures w))
                 ∧ futures (finally u raises t f w0) = futures w ++ [Pending]
               ∨ REQUESTS_IN_PROCESSING (finally u raises t f w0)
                 = delete u (REQUESTS_IN_PROCESSING w)
                 ∧ Finished = Finished)) as Hfinally.
  { intros t f w0 Hf Hr. rewrite finally_registry, Hr.
    destruct (finally_frame u raises t f w0) as (_ & _ & -> & _). rewrite Hf.
    split; [by left|]. case_decide as Hreg.
    - right; right. by split.
    - left. split; [done|]. right. split; [done|]. by intros f0 [= <-]. }
  destruct fr as [as_files|as_files task_type images|as_files task images i
                  |as_files task future|task future|task future|];
    cbn [process_images_resume] in Hres.
  - destruct (fsm_data w !! u) as [[task_type images]|]; [|simplify_eq].
    + destruct (check_images task_type images); simplify_eq;
        (split; [by left|]); left; (split; [done|]); by left.
    + split; [by left|]. left. split; [done|]. by left.
  - destruct images; cbn [new_task] in Hres; simplify_eq.
    + refine (Hsubmit _ _ _ _ _ _ _ Hres); reflexivity.
    + split; [by left|]. left. split; [done|]. by left.
  - destruct (downloaded_frame task i images w) as (_ & _ & Hr & Hf & _).
    repeat case_bool_decide; simplify_eq.
    + unfold task_done_guarded. destruct raises; cbn; rewrite Hr, Hf;
        (split; [by left|]); left; (split; [done|]); right; by split.
    + rewrite Hr, Hf. split; [by left|]. left. split; [done|]. by left.
    + exact (Hsubmit _ _ _ _ _ Hf Hr Hres).
  - destruct (future_state future w) as [| |results|[]]; simplify_eq.
    all: try (split; [by left|]; left; (split; [done|]); by left).
    apply Hfinally; reflexivity.
  - simplify_eq. split; [by left|]. left. split; [done|]. by left.
  - simplify_eq. apply Hfinally; reflexivity.
  - done.
Qed.

(** What a message does to a future object. *)
Lemma handle_future m w f x :
  futures w !! f = Some x →
  futures (fst (handle m w)) !! f = Some x
  ∨ x = Pending
    ∧ futures (fst (handle m w)) !! f = Some Cancelled
    ∧ dispatch (get_state (from_user m) w) m = cancel_handler_h
    ∧ REQUESTS_IN_PROCESSING w !! from_user m = Some f.
Proof.
  intros Hf. unfold handle.
  destruct (dispatch (get_state (from_user m) w) m) eqn:Hd; cbn [fst];
    try (left;
         unfold send_welcome, style_chosen_handler, save_images_as_mediagroup,
           image_sent_at_wrong_time_handler, bad_content_handler,
           any_other_message_handler, next;
         by repeat case_match).
  unfold cancel_handler, pop.
  destruct (get_state (from_user m) w); [|by left].
  cbn [REQUESTS_IN_PROCESSING finish log].
  destruct (REQUESTS_IN_PROCESSING w !! from_user m) as [f0|] eqn:Hr; [|by left].
  assert (∀ w0, futures w0 = alter cancel f0 (futures w) →
                futures w0 !! f = Some x
                ∨ x = Pending ∧ futures w0 !! f = Some Cancelled
                  ∧ cancel_handler_h = cancel_handler_h ∧ Some f0 = Some f) as Hcase.
  { intros w0 ->. destruct (decide (f0 = f)) as [->|Hne].
    - rewrite list_lookup_alter_eq, Hf. destruct x; cbn; auto.
    - rewrite list_lookup_alter_ne by done. by left. }
  repeat case_match; by apply Hcase.
Qed.

(** The shape of what a segment does to data and registry: only the
    entries of its own user can change. *)
Lemma resume_shape u raises fr w fr' w' :
  process_images_resume u raises fr w = Some (fr', w') →
  (fsm_data w' = fsm_data w ∨ fsm_data w' = delete u (fsm_data w))
  ∧ (REQUESTS_IN_PROCESSING w' = REQUESTS_IN_PROCESSING w
     ∨ (∃ f, REQUESTS_IN_PROCESSING w' = <[u:=f]> (REQUESTS_IN_PROCESSING w))
     ∨ REQUESTS_IN_PROCESSING w' = delete u (REQUESTS_IN_PROCESSING w)).
Proof.
  intros Hres.
  assert (∀ b t w0, fsm_data (snd (submit u raises b t w0)) = fsm_data w0
            ∧ (REQUESTS_IN_PROCESSING (snd (submit u raises b t w0))
                 = REQUESTS_IN_PROCESSING w0
               ∨ (∃ f, REQUESTS_IN_PROCESSING (snd (submit u raises b t w0))
                       = <[u:=f]> (REQUESTS_IN_PROCESSING w0))
               ∨ REQUESTS_IN_PROCESSING (snd (submit u raises b t w0))
                 = delete u (REQUESTS_IN_PROCESSING w0))) as Hsubmit.
  { intros b t w0. rewrite submit_spec. cbv zeta.
    destruct (REQUESTS_IN_PROCESSING w0 !! u); [case_decide|]; cbn [snd].
    - split; [done|]. by left.
    - unfold task_done_guarded. destruct raises; cbn; split; auto.
    - split; [done|]. right; left. by eexists. }
  assert (∀ t f w0, fsm_data (finally u raises t f w0) = fsm_data w0
            ∧ (REQUESTS_IN_PROCESSING (finally u raises t f w0)
                 = REQUESTS_IN_PROCESSING w0
               ∨ (∃ f', REQUESTS_IN_PROCESSING (finally u raises t f w0)
                        = <[u:=f']> (REQUESTS_IN_PROCESSING w0))
               ∨ REQUESTS_IN_PROCESSING (finally u raises t f w0)
                 = delete u (REQUESTS_IN_PROCESSING w0))) as Hfinally.
  { intros t f w0. rewrite finally_registry.
    destruct (finally_frame u raises t f w0) as (_ & -> & _).
    split; [done|]. case_decide; auto. }
  destruct fr as [as_files|as_files task_type images|as_files task images i
                  |as_files task future|task future|task future|];
    cbn [process_images_resume] in Hres.
  - destruct (fsm_data w !! u) as [[task_type images]|]; [|simplify_eq; auto].
    destruct (check_images task_type images); simplify_eq; auto.
  - destruct images; cbn [new_task] in Hres; simplify_eq; [|auto].
    rewrite (surjective_pairing (submit _ _ _ _ _)) in Hres. simplify_eq.
    destruct (Hsubmit as_files (length (tasks (next u w)))
                (with_tasks (tasks (next u w) ++ [mkTask task_type [] 0]) (next u w)))
      as [-> Hr].
    split; [by left|exact Hr].
  - destruct (downloaded_frame task i images w) as (_ & Hd & Hr & _).
    repeat case_bool_decide; simplify_eq.
    + unfold task_done_guarded. destruct raises; cbn; rewrite Hd, Hr; auto.
    + rewrite Hd, Hr. auto.
    + rewrite (surjective_pairing (submit _ _ _ _ _)) in Hres. simplify_eq.
      destruct (Hsubmit as_files task (downloaded task i images w)) as [-> Hs].
      rewrite Hd, Hr in *. split; [by left|exact Hs].
  - destruct (future_state future w) as [| |results|[]]; simplify_eq; cbn; auto.
    destruct (Hfinally task future (log "Future is cancelled by other handler" w))
      as [-> Hr].
    split; [by left|exact Hr].
  - simplify_eq. auto.
  - simplify_eq. destruct (Hfinally task future w) as [-> Hr]. split; [by left|exact Hr].
  - done.
Qed.

(** The data and the registry entry of a user after a message of
    another user. *)
Lemma handle_other m w u :
  from_user m ≠ u →
  fsm_data (fst (handle m w)) !! u = fsm_data w !! u
  ∧ REQUESTS_IN_PROCESSING (fst (handle m w)) !! u = REQUESTS_IN_PROCESSING w !! u.
Proof.
  intros Hne. unfold handle.
  destruct (dispatch (get_state (from_user m) w) m); cbn [fst];
    unfold send_welcome, cancel_handler, style_chosen_handler,
      save_images_as_mediagroup, image_sent_at_wrong_time_handler,
      bad_content_handler, any_other_message_handler, pop, next;
    repeat case_match; simplify_eq; world_proj;
    repeat first [rewrite lookup_insert_ne by done | rewrite lookup_delete_ne by done];
    done.
Qed.

(** X14.  Future objects are never dropped and a finished future is
    final.  Across any step of the bot a future that exists still
    exists; if it was done (cancelled, returned or raised) it is
    unchanged; if it was pending it is still pending, or it was
    cancelled by the cancel handler of the user it is registered for, or
    the worker has just completed it. *)
Theorem finished_future_is_final (s : System) (l : Label) (s' : System)
    (f : FutId) (x : Future) :
  step s l s' →
  futures (world s) !! f = Some x →
  ∃ x',
    futures (world s') !! f = Some x'
    ∧ (done x = true → x' = x)
    ∧ (x' = x
       ∨ x = Pending ∧ x' = Cancelled
         ∧ (∃ m, l = Deliver m
                 ∧ REQUESTS_IN_PROCESSING (world s) !! from_user m = Some f)
       ∨ x = Pending ∧ l = Complete f x' ∧ is_outcome x' = true).
Proof.
  intros Hstep Hf.
  destruct Hstep as [s m|s i raises u fr fr' w' Hi Hres|s future outcome Hp Ho];
    cbn [world].
  - destruct (handle_future m (world s) f x Hf) as [Hsame|(-> & Hc & _ & Hr)].
    + exists x. split; [done|]. split; [done|]. by left.
    + exists Cancelled. split; [done|]. split; [done|]. right; left.
      split; [done|]. split; [done|]. by exists m.
  - exists x.
    assert (futures w' !! f = Some x) as Hsame.
    { destruct fr as [as_files|as_files task_type images|as_files task images i0
                      |as_files task future|task future|task future|];
        cbn [process_images_resume] in Hres.
      - destruct (fsm_data (world s) !! u) as [[task_type images]|]; [|by simplify_eq].
        by destruct (check_images task_type images); simplify_eq.
      - destruct images; cbn [new_task] in Hres; simplify_eq; [|done].
        rewrite (surjective_pairing (submit _ _ _ _ _)) in Hres. simplify_eq.
        rewrite submit_spec. cbv zeta.
        destruct (REQUESTS_IN_PROCESSING _ !! u); [case_decide|]; cbn [snd];
          unfold task_done_guarded; try destruct raises; cbn;
          by apply lookup_app_l_Some.
      - destruct (downloaded_frame task i0 images (world s)) as (_ & _ & Hr & Hfut & _).
        repeat case_bool_decide; simplify_eq.
        + unfold task_done_guarded. destruct raises; cbn; by rewrite Hfut.
        + by rewrite Hfut.
        + rewrite (surjective_pairing (submit _ _ _ _ _)) in Hres. simplify_eq.
          rewrite submit_spec. cbv zeta. rewrite Hfut.
          destruct (REQUESTS_IN_PROCESSING _ !! u); [case_decide|]; cbn [snd];
            unfold task_done_guarded; try destruct raises; cbn;
            by apply lookup_app_l_Some.
      - destruct (future_state future (world s)) as [| |results|[]]; simplify_eq;
          try done.
        by destruct (finally_frame u raises task future
                       (log "Future is cancelled by other handler" (world s)))
          as (_ & _ & -> & _).
      - by simplify_eq.
      - simplify_eq.
        by destruct (finally_frame u raises task future (world s)) as (_ & _ & -> & _).
      - done. }
    split; [done|]. split; [done|]. by left.
  - cbn [futures with_futures]. destruct (decide (future = f)) as [->|Hne].
    + exists outcome. rewrite list_lookup_insert_eq by (by eapply lookup_lt_Some).
      assert (x = Pending) as -> by congruence.
      split; [done|]. split; [done|]. right; right. by repeat split.
    + exists x. rewrite list_lookup_insert_ne by done.
      split; [done|]. split; [done|]. by left.
Qed.

Lemma finished_future_is_final_witness :
  step alice_in_flight (Deliver cancel_message) (deliver cancel_message alice_in_flight)
  ∧ futures (world alice_in_flight) !! 0 = Some Pending
  ∧ ∃ x', futures (world (deliver cancel_message alice_in_flight)) !! 0 = Some x'.
Proof.
  assert (step alice_in_flight (Deliver cancel_message)
               (deliver cancel_message alice_in_flight)) as Hstep
    by apply step_deliver.
  split; [exact Hstep|]. split; [reflexivity|].
  destruct (finished_future_is_final _ _ _ 0 Pending Hstep eq_refl)
    as (x' & Hx & _).
  exists x'. exact Hx.
Defined.

(** X15.  Users are isolated.  A step that is not the user's own (a
    message of another sender, a coroutine of another user, a worker
    completion) leaves the user's state, data and registry entry as they
    are. *)
Theorem other_users_untouched (s : System) (l : Label) (s' : System) (u : UserId) :
  step s l s' →
  label_user s l ≠ Some u →
  get_state u (world s') = get_state u (world s)
  ∧ fsm_data (world s') !! u = fsm_data (world s) !! u
  ∧ REQUESTS_IN_PROCESSING (world s') !! u = REQUESTS_IN_PROCESSING (world s) !! u.
Proof.
  intros Hstep Hl.
  destruct Hstep as [s m|s i raises u0 fr fr' w' Hi Hres|s future outcome Hp Ho];
    cbn [world label_user] in *.
  - assert (from_user m ≠ u) as Hne by congruence.
    split; [by apply handle_state_other|]. by apply handle_other.
  - rewrite Hi in Hl. cbn in Hl. assert (u0 ≠ u) as Hne by congruence.
    split.
    { rewrite (resume_state u0 raises fr (world s) fr' w' u Hres).
      destruct fr; try done.
      - by rewrite get_state_next, decide_False.
      - case_match; [|done]. by rewrite get_state_finish_cases, decide_False. }
    destruct (resume_shape u0 raises fr (world s) fr' w' Hres) as [Hd Hr].
    split.
    + destruct Hd as [-> | ->]; [done|]. by rewrite lookup_delete_ne.
    + destruct Hr as [-> |[[f ->]| ->]]; [done| |].
      * by rewrite lookup_insert_ne.
      * by rewrite lookup_delete_ne.
  - done.
Qed.

Lemma other_users_untouched_witness :
  step alice_in_flight (Deliver cancel_message) (deliver cancel_message alice_in_flight)
  ∧ label_user alice_in_flight (Deliver cancel_message) ≠ Some 8
  ∧ get_state 8 (world (deliver cancel_message alice_in_flight))
    = get_state 8 (world alice_in_flight).
Proof.
  assert (step alice_in_flight (Deliver cancel_message)
               (deliver cancel_message alice_in_flight)) as Hstep
    by apply step_deliver.
  assert (label_user alice_in_flight (Deliver cancel_message) ≠ Some 8) as Hl
    by discriminate.
  split; [exact Hstep|]. split; [exact Hl|].
  destruct (other_users_untouched _ _ _ 8 Hstep Hl) as (Hs & _). exact Hs.
Defined.

(** Every registered future is held by a running coroutine of the
    registered user. *)
Lemma reachable_registry_owned s :
  reachable s →
  ∀ u f, REQUESTS_IN_PROCESSING (world s) !! u = Some f →
         ∃ i fr, running s !! i = Some (u, fr) ∧ frame_future fr = Some f.
Proof.
  induction 1 as [|s l s' Hreach IH Hstep]; intros v f Hreg; [done|].
  pose proof (reachable_registry_valid s Hreach) as Hv.
  destruct Hstep as [s m|s i raises u fr fr' w' Hi Hres|s future outcome Hp Ho];
    cbn [world running] in *.
  - destruct (handle_frame m (world s)) as (_ & _ & Hsub & _).
    destruct (IH v f (Hsub v f Hreg)) as (j & frj & Hj & Hfj).
    exists j, frj. split; [by apply lookup_app_l_Some|done].
  - pose proof (lookup_lt_Some _ _ _ Hi) as Hlt.
    destruct (resume_cases u raises fr (world s) fr' w' Hres Hv)
      as (_ & [(Hr & Hfr)|[(Hr & Hnone & Hsome & _)|(Hr & ->)]]);
      rewrite Hr in Hreg.
    + destruct (IH v f Hreg) as (j & frj & Hj & Hfj).
      destruct (decide (i = j)) as [->|Hne].
      * rewrite Hi in Hj. injection Hj as -> ->.
        destruct Hfr as [Hsame|[-> Hnot]]; [|by destruct (Hnot f Hfj)].
        exists j, fr'. split; [by apply list_lookup_insert_eq|congruence].
      * exists j, frj. split; [by rewrite list_lookup_insert_ne|done].
    + apply lookup_insert_Some in Hreg as [[<- <-]|[Hne Hreg]].
      * exists i, fr'. split; [by apply list_lookup_insert_eq|done].
      * destruct (IH v f Hreg) as (j & frj & Hj & Hfj).
        exists j, frj. split; [|done]. rewrite list_lookup_insert_ne; [done|].
        intros ->. rewrite Hi in Hj. congruence.
    + apply lookup_delete_Some in Hreg as [Hne Hreg].
      destruct (IH v f Hreg) as (j & frj & Hj & Hfj).
      exists j, frj. split; [|done]. rewrite list_lookup_insert_ne; [done|].
      intros ->. rewrite Hi in Hj. congruence.
  - by apply IH.
Qed.

(** Every future is held by at most one running coroutine, and only
    futures that exist are held. *)
Lemma reachable_awaited_once s :
  reachable s →
  ∀ f, awaiting f (running s) ≤ if decide (f < length (futures (world s))) then 1 else 0.
Proof.
  induction 1 as [|s l s' Hreach IH Hstep]; intros f; [cbn; case_decide; lia|].
  pose proof (reachable_registry_valid s Hreach) as Hv.
  specialize (IH f).
  destruct Hstep as [s m|s i raises u fr fr' w' Hi Hres|s future outcome Hp Ho];
    cbn [world running] in *.
  - destruct (handle_frame m (world s)) as (_ & -> & _ & Hfr).
    unfold awaiting in *. rewrite sum_list_with_app.
    destruct Hfr as [-> | ->]; cbn [sum_list_with compose snd];
      change (awaits f (AtSleep (text_results_as_files m))) with 0;
      case_decide; lia.
  - pose proof (sum_list_with_insert (awaits f ∘ snd) (running s) i (u, fr) (u, fr') Hi)
      as Hins.
    cbn [compose snd] in Hins. fold (awaiting f (running s)) in Hins.
    fold (awaiting f (<[i:=(u, fr')]> (running s))) in Hins.
    pose proof (sum_list_with_lookup_le (awaits f ∘ snd) (running s) i (u, fr) Hi) as Hle.
    cbn [compose snd] in Hle. fold (awaiting f (running s)) in Hle.
    destruct (resume_cases u raises fr (world s) fr' w' Hres Hv)
      as (Hfut & [(_ & Hfr)|[(_ & Hnone & Hsome & Happ)|(_ & ->)]]).
    + assert (length (futures (world s)) ≤ length (futures w')) as Hlen.
      { destruct Hfut as [-> | ->]; [done|]. rewrite length_app. lia. }
      assert (awaits f fr' ≤ awaits f fr) as Hmono.
      { unfold awaits. destruct Hfr as [-> |[-> _]]; [done|].
        cbn. repeat case_decide; (done || lia). }
      repeat case_decide; lia.
    + rewrite Happ, length_app. cbn [length].
      unfold awaits in *. rewrite Hnone, Hsome in *.
      repeat case_decide; simplify_eq; lia.
    + assert (length (futures (world s)) ≤ length (futures w')) as Hlen.
      { destruct Hfut as [-> | ->]; [done|]. rewrite length_app. lia. }
      unfold awaits in *. cbn [frame_future] in *.
      repeat case_decide; simplify_eq; lia.
  - cbn. by rewrite length_insert.
Qed.

(** X16.  No stale and no shared registry entry.  In every state the
    bot can reach, a future that is registered for a user exists, is
    held by a running coroutine of that very user, and is held by no
    second coroutine. *)
Theorem registered_future_awaited (s : System) (u : UserId) (f : FutId) :
  reachable s →
  REQUESTS_IN_PROCESSING (world s) !! u = Some f →
  f < length (futures (world s))
  ∧ awaiting f (running s) = 1
  ∧ ∃ i fr, running s !! i = Some (u, fr) ∧ frame_future fr = Some f.
Proof.
  intros Hreach Hreg.
  pose proof (reachable_registry_valid s Hreach u f Hreg) as Hlt.
  destruct (reachable_registry_owned s Hreach u f Hreg) as (i & fr & Hi & Hfr).
  split; [done|]. split; [|by exists i, fr].
  pose proof (reachable_awaited_once s Hreach f) as Hle.
  rewrite decide_True in Hle by done.
  pose proof (sum_list_with_lookup_le (awaits f ∘ snd) (running s) i (u, fr) Hi) as Hge.
  cbn [compose snd] in Hge. fold (awaiting f (running s)) in Hge.
  unfold awaits in Hge. rewrite decide_True in Hge by done. lia.
Qed.

Lemma reachable_alice_submitted : reachable alice_submitted.
Proof. apply reachable_resume, reachable_alice_downloading. Qed.

Lemma registered_future_awaited_witness :
  reachable alice_submitted
  ∧ REQUESTS_IN_PROCESSING (world alice_submitted) !! alice = Some 0
  ∧ running alice_submitted = [(alice, AtFuture false 0 0)]
  ∧ awaiting 0 (running alice_submitted) = 1.
Proof.
  split; [apply reachable_alice_submitted|]. split; [reflexivity|].
  split; [reflexivity|].
  destruct (registered_future_awaited alice_submitted alice 0
              reachable_alice_submitted eq_refl) as (_ & H & _).
  exact H.
Defined.

(** ** While a request is processed *)

(** X17.  While a user is in [processing], the only message of his that
    does more than draw a reply is a cancel: every message is either
    dispatched to the cancel handler, or it leaves the world as it is
    but for one reply to him, and it starts no coroutine. *)
Theorem processing_state_guard (m : Message) (w : World) :
  get_state (from_user m) w = Some processing →
  handle m w = (cancel_handler m w, None)
  ∧ dispatch (Some processing) m = cancel_handler_h
  ∨ ∃ r, handle m w = (reply (from_user m) r w, None).
Proof.
  intros Hs. unfold handle. rewrite Hs.
  destruct (dispatch (Some processing) m) eqn:Hd.
  - apply dispatch_send_welcome in Hd. discriminate.
  - by left.
  - apply dispatch_style_chosen in Hd. by destruct Hd.
  - exfalso. unfold dispatch in Hd.
    rewrite !(bool_decide_false (Some processing = _)) in Hd by done.
    repeat first [rewrite andb_false_r in Hd | progress cbn [orb andb] in Hd].
    repeat case_match; discriminate.
  - exfalso. unfold dispatch in Hd.
    rewrite !(bool_decide_false (Some processing = _)) in Hd by done.
    repeat first [rewrite andb_false_r in Hd | progress cbn [orb andb] in Hd].
    repeat case_match; discriminate.
  - right. unfold image_sent_at_wrong_time_handler. rewrite Hs. by eexists.
  - right. by eexists.
  - right. unfold any_other_message_handler. rewrite Hs. by eexists.
Qed.

Lemma processing_state_guard_witness :
  get_state (from_user ok_message) (world_processing Pending) = Some processing
  ∧ ∃ r, handle ok_message (world_processing Pending)
         = (reply alice r (world_processing Pending), None).
Proof.
  split; [reflexivity|].
  destruct (processing_state_guard ok_message (world_processing Pending) eq_refl)
    as [[_ Hd]|H].
  - discriminate Hd.
  - exact H.
Defined.

(** X18.  The success path, undisturbed.  A coroutine that wakes up
    with a returned future and is resumed three times in a row finishes
    the user's state and data, sends the results (as files or photos, as
    asked) and then "Here is the result", removes its own registry entry
    and calls [task.done()] once; it creates no future and leaves the
    future's result in place. *)
Theorem success_path (u : UserId) (raises as_files : bool) (task : TaskId)
    (future : FutId) (results : list string) (w : World) :
  future_state future w = Returned results →
  REQUESTS_IN_PROCESSING w !! u = Some future →
  task < length (tasks w) →
  ∃ w',
    resume_coroutine 3 u raises (AtFuture as_files task future) w = (Finished, w')
    ∧ get_state u w' = None
    ∧ fsm_data w' = delete u (fsm_data w)
    ∧ REQUESTS_IN_PROCESSING w' = delete u (REQUESTS_IN_PROCESSING w)
    ∧ futures w' = futures w
    ∧ outbox w'
      = outbox w ++ [(u, ResultMedia as_files results); (u, HereIsTheResult)]
    ∧ released task w' = S (released task w)
    ∧ errors w' = errors w.
Proof.
  intros Hf Hr Hlt. eexists.
  split.
  { cbn [resume_coroutine process_images_resume]. by rewrite Hf. }
  set (w2 := reply u HereIsTheResult _).
  destruct (finally_frame u raises task future w2) as (Hs & Hd & Hfu & Ho & He).
  split; [unfold get_state; rewrite Hs; apply lookup_delete_eq|].
  split; [by rewrite Hd|].
  split.
  { rewrite finally_registry. unfold w2. cbn [REQUESTS_IN_PROCESSING reply finish log].
    by rewrite decide_True. }
  split; [by rewrite Hfu|].
  split; [rewrite Ho; unfold w2; cbn; by rewrite <- app_assoc|].
  split; [|by rewrite He].
  unfold finally. rewrite released_task_done_guarded, released_release.
  case_bool_decide; cbn [tasks with_registry]; by rewrite decide_True.
Qed.

Lemma success_path_witness :
  future_state 0 (world_processing (Returned ["0.png"])) = Returned ["0.png"]
  ∧ ∃ w',
      resume_coroutine 3 alice false (AtFuture true 0 0)
        (world_processing (Returned ["0.png"])) = (Finished, w')
      ∧ REQUESTS_IN_PROCESSING w' = ∅
      ∧ outbox w' = [(alice, ResultMedia true ["0.png"]); (alice, HereIsTheResult)]
      ∧ released 0 w' = 1.
Proof.
  split; [reflexivity|].
  assert (0 < length (tasks (world_processing (Returned ["0.png"])))) as Hlt
    by (cbn; lia).
  destruct (success_path alice false true 0 0 ["0.png"]
              (world_processing (Returned ["0.png"])) eq_refl eq_refl Hlt)
    as (w' & Hrun & _ & _ & Hreg & _ & Ho & Hrel & _).
  exists w'. split; [exact Hrun|]. split; [rewrite Hreg; reflexivity|].
  split; [exact Ho|exact Hrel].
Defined.
